(** * xsd2pgsql: a shallow embedding of [xsd2pgsql.py]

    The first part follows the Python source top to bottom: the
    exceptions the script can raise, Python's string helpers, the
    [SDict] class and the [DEFX2P] table, the lxml element tree, then
    [pg_normalize], [look4element], [buildTypes] and the part of [main]
    that handles one file.  The second part states and proves the
    properties of these definitions. *)

From Stdlib Require Import ZArith Lia Ascii String DecimalString.
From stdpp Require Import base relations strings list gmap.

Local Open Scope string_scope.

(** ** Exceptions and results *)

(** The exceptions that can escape a function of the script.
    [MaxRecursion] is the script's own class; the others are Python's.
    [OutsideModel] is no exception: it marks the two places where the
    embedding stops, a format specifier that the table does not use
    and a path that lxml goes on parsing after an apostrophe. *)
Inductive exn : Set :=
  | MaxRecursion
  | KeyError
  | TypeError
  | ValueError
  | AttributeError
  | RecursionError
  | SyntaxError
  | OutsideModel.

(** A Python call either returns a value or raises. *)
Inductive result (A : Type) : Type :=
  | Ok (a : A)
  | Raise (e : exn).

Arguments Ok {A} a.
Arguments Raise {A} e.

#[global] Instance result_ret : MRet result := @Ok.

#[global] Instance result_bind : MBind result := fun A B k m =>
  match m with
  | Ok a => k a
  | Raise e => Raise e
  end.

(** A [for] loop whose body may raise: the state is threaded from one
    item to the next and the first exception ends the loop. *)
Fixpoint for_each {S X : Type} (body : S -> X -> result S)
    (xs : list X) (s : S) : result S :=
  match xs with
  | [] => Ok s
  | x :: rest => s' ← body s x; for_each body rest s'
  end.

(** ** Python strings *)

Definition NL : string := String (ascii_of_nat 10) EmptyString.

(** Truthiness of a value that is a [str] or [None]. *)
Definition truthy (v : option string) : bool :=
  match v with
  | Some (String _ _) => true
  | _ => false
  end.

(** [a or b] on such values. *)
Definition py_or (a b : option string) : option string :=
  if truthy a then a else b.

(** [str(v)], as ["%s" % v] prints it. *)
Definition py_str (v : option string) : string :=
  match v with
  | Some s => s
  | None => "None"
  end.

Fixpoint starts_with (p s : string) : bool :=
  match p, s with
  | EmptyString, _ => true
  | String a p', String b s' => if Ascii.eqb a b then starts_with p' s' else false
  | String _ _, EmptyString => false
  end.

(** [s.replace(old, new)] for a non-empty [old]: occurrences are found
    left to right and do not overlap.  [skip] counts the characters of
    a matched occurrence that are still to be consumed. *)
Fixpoint replace_from (old new : string) (skip : nat) (s : string) : string :=
  match s with
  | EmptyString => EmptyString
  | String c s' =>
      match skip with
      | S k => replace_from old new k s'
      | O =>
          if starts_with old s
          then new +:+ replace_from old new (String.length old - 1) s'
          else String c (replace_from old new 0 s')
      end
  end.

Definition replace (old new s : string) : string := replace_from old new 0 s.

(** A character of the model is a code point below 256.  One character
    of [str.lower()]: the upper-case letters below 256 are [A]-[Z] and
    U+00C0-U+00DE without the multiplication sign U+00D7, and each has
    its lower-case letter 32 places further.  Strings with other code
    points, for which [str.lower()] may change the length, are outside
    the model. *)
Definition lower_char (c : ascii) : ascii :=
  let n := nat_of_ascii c in
  if (65 <=? n)%nat && (n <=? 90)%nat then ascii_of_nat (n + 32)
  else if (192 <=? n)%nat && (n <=? 222)%nat && negb (n =? 215)%nat
  then ascii_of_nat (n + 32)
  else c.

Fixpoint lower (s : string) : string :=
  match s with
  | EmptyString => EmptyString
  | String c s' => String (lower_char c) (lower s')
  end.

(** ** The [SDict] class and the table [DEFX2P] *)

(** The formatter behind [fmt % mapping].  It scans [fmt] left to
    right; [%(key)s] fetches [mapping[key]] as soon as the key is
    closed, and [%%] prints a percent sign.  A format that ends inside
    a specifier is a [ValueError].  The table below uses no other
    specifier (flags, widths, other conversions, a specifier without
    key): there the embedding stops with [OutsideModel]. *)
Inductive fmt_state : Set :=
  | FText
  | FPercent
  | FKey (key : string) (depth : nat)
  | FConv (value : string).

Fixpoint format_from (getitem : string -> result string)
    (st : fmt_state) (fmt : string) : result string :=
  match fmt with
  | EmptyString =>
      match st with
      | FText => Ok EmptyString
      | _ => Raise ValueError
      end
  | String c fmt' =>
      match st with
      | FText =>
          if Ascii.eqb c "%" then format_from getitem FPercent fmt'
          else rest ← format_from getitem FText fmt'; Ok (String c rest)
      | FPercent =>
          if Ascii.eqb c "(" then format_from getitem (FKey "" 0) fmt'
          else if Ascii.eqb c "%"
          then rest ← format_from getitem FText fmt'; Ok (String "%" rest)
          else Raise OutsideModel
      | FKey key depth =>
          if Ascii.eqb c ")" then
            match depth with
            | O => v ← getitem key; format_from getitem (FConv v) fmt'
            | S d => format_from getitem (FKey (key +:+ String c "") d) fmt'
            end
          else if Ascii.eqb c "("
          then format_from getitem (FKey (key +:+ String c "") (S depth)) fmt'
          else format_from getitem (FKey (key +:+ String c "") depth) fmt'
      | FConv v =>
          if Ascii.eqb c "s"
          then rest ← format_from getitem FText fmt'; Ok (v +:+ rest)
          else Raise OutsideModel
      end
  end.

Definition py_format (getitem : string -> result string) (fmt : string)
  : result string :=
  format_from getitem FText fmt.

(** [SDict.__getitem__]: [dict.__getitem__(self, item) % self].  A missing
    key is [KeyError]; a stored [None] has no [%] and is [TypeError]; a
    stored string is formatted against the dictionary itself, which calls
    [__getitem__] again for every [%(key)s].  [depth] is the number of
    nested [__getitem__] frames the interpreter still allows. *)
Fixpoint SDict_getitem (depth : nat) (self : gmap string (option string))
    (item : string) : result string :=
  match depth with
  | O => Raise RecursionError
  | S d =>
      match self !! item with
      | None => Raise KeyError
      | Some None => Raise TypeError
      | Some (Some fmt) => py_format (SDict_getitem d self) fmt
      end
  end.

(** [SDict.get]: the same expression under [try], with [except KeyError:
    return None].  No other exception is caught. *)
Definition SDict_get (depth : nat) (self : gmap string (option string))
    (item : string) : result (option string) :=
  match SDict_getitem depth self item with
  | Ok v => Ok (Some v)
  | Raise KeyError => Ok None
  | Raise e => Raise e
  end.

(** The entries of the table, in source order. *)
Definition DEFX2P_items : list (string * option string) :=
  [ ("string", Some "varchar");
    ("boolean", Some "boolean");
    ("decimal", Some "numeric");
    ("float", Some "real");
    ("double", Some "double precision");
    ("duration", Some "interval");
    ("dateTime", Some "timestamp");
    ("time", Some "time");
    ("date", Some "date");
    ("gYearMonth", Some "timestamp");
    ("gYear", Some "timestamp");
    ("gMonthDay", Some "timestamp");
    ("gDay", Some "timestamp");
    ("gMonth", Some "timestamp");
    ("hexBinary", Some "bytea");
    ("base64Binary", Some "bytea");
    ("anyURI", Some "varchar");
    ("QName", None);
    ("NOTATION", None);
    ("normalizedString", Some "%(string)s");
    ("token", Some "%(string)s");
    ("language", Some "%(string)s");
    ("NMTOKEN", None);
    ("NMTOKENS", None);
    ("Name", Some "%(string)s");
    ("NCName", Some "%(string)s");
    ("ID", None);
    ("IDREF", None);
    ("IDREFS", None);
    ("ENTITY", None);
    ("ENTITIES", None);
    ("integer", Some "integer");
    ("nonPositiveInteger", Some "%(integer)s");
    ("negativeInteger", Some "%(integer)s");
    ("long", Some "%(integer)s");
    ("int", Some "%(integer)s");
    ("short", Some "%(integer)s");
    ("byte", Some "%(integer)s");
    ("nonNegativeInteger", Some "%(integer)s");
    ("unsignedLong", Some "%(integer)s");
    ("unsignedInt", Some "%(integer)s");
    ("unsignedShort", Some "%(integer)s");
    ("unsignedByte", Some "%(integer)s");
    ("positiveInteger", Some "%(integer)s") ].

Definition DEFX2P : gmap string (option string) := list_to_map DEFX2P_items.

(** Python's default recursion limit; the table needs two frames. *)
Definition PY_RECURSION_LIMIT : nat := 1000.

Definition DEFX2P_getitem (item : string) : result string :=
  SDict_getitem PY_RECURSION_LIMIT DEFX2P item.

Definition DEFX2P_get (item : string) : result (option string) :=
  SDict_get PY_RECURSION_LIMIT DEFX2P item.

Arguments DEFX2P_getitem : simpl never.
Arguments DEFX2P_get : simpl never.

(** ** The parsed document *)

(** What lxml gives as [tag] of a node: for an element its name in
    Clark notation ([{namespace}local]); for a comment, a processing
    instruction or an entity reference a marker that no path matches. *)
Inductive NodeTag : Type :=
  | ElementTag (name : string)
  | CommentTag
  | PITag
  | EntityTag.

(** An lxml node: its tag, its attributes and its children in
    document order.  The children are the nodes lxml counts in
    [len(el)] and in the truth value of [el]: elements, comments,
    processing instructions and entity references, not text.  The
    parsed document is represented by its root element, to which lxml
    forwards [findall] and [find] of the tree object. *)
#[local] Unset Elimination Schemes.
Inductive Element : Type :=
  mkElement {
    tag : NodeTag;
    attrib : gmap string string;
    children : list Element
  }.
#[local] Set Elimination Schemes.

(** Whether a node is an element with the qualified name [path]. *)
Definition has_tag (path : string) (c : Element) : bool :=
  match tag c with
  | ElementTag name => String.eqb name path
  | _ => false
  end.

(** [el.get(key)] *)
Definition get (el : Element) (key : string) : option string :=
  attrib el !! key.

(** [el.findall(path)] for a path that is a single qualified tag: the
    direct children with that tag, in document order. *)
Definition findall (el : Element) (path : string) : list Element :=
  List.filter (has_tag path) (children el).

(** [el.find(path)]: the first such child, or [None]. *)
Definition find (el : Element) (path : string) : option Element :=
  head (findall el path).

(** The text that follows the first apostrophe of a string, if it has
    one. *)
Fixpoint after_apostrophe (s : string) : option string :=
  match s with
  | EmptyString => None
  | String c s' => if Ascii.eqb c "'" then Some s' else after_apostrophe s'
  end.

(** Whether a character that follows the closing quote of a predicate
    value lets lxml close the predicate and go on parsing: a closing
    bracket, or a character that the tokenizer may skip, which are the
    exclamation mark and what may count as white space (control
    characters, the space, and, to be on the safe side, every code
    point from 128 on). *)
Definition continues_path (c : ascii) : bool :=
  let n := nat_of_ascii c in
  Ascii.eqb c "]" || Ascii.eqb c "!" || (n <=? 32)%nat || (128 <=? n)%nat.

(** [el.find("r:local[@name='value']", {'r': uri})].  For a [value]
    without apostrophe it is the first direct child with that tag whose
    [name] attribute is [value], or [None].  An apostrophe in [value]
    closes the quoted string early.  When a character that makes a
    token of its own follows it, or nothing at all, lxml finds a further
    token inside the predicate and raises [SyntaxError].  Otherwise the
    predicate may be closed and the rest of [value] parsed as a path of
    its own: this case is outside the model. *)
Definition find_named (el : Element) (uri local value : string)
  : result (option Element) :=
  match after_apostrophe value with
  | None =>
      Ok (head (List.filter
                  (fun c => match get c "name" with
                            | Some n => String.eqb n value
                            | None => false
                            end)
                  (findall el ("{" +:+ uri +:+ "}" +:+ local))))
  | Some EmptyString => Raise SyntaxError
  | Some (String c _) =>
      if continues_path c then Raise OutsideModel else Raise SyntaxError
  end.

(** Truthiness of the result of [find]: [None] is false, and lxml makes
    a node false when it has no children (elements, comments,
    processing instructions, entity references). *)
Definition node_truthy (n : option Element) : bool :=
  match n with
  | Some t => match children t with [] => false | _ :: _ => true end
  | None => false
  end.

(** ** Configuration and globals *)

Definition MAX_RECURSE_LEVEL : Z := 100.
Definition XMLS : string := "{http://www.w3.org/2001/XMLSchema}".
Definition XMLS_PREFIX : string := "xs:".

(** ** [pg_normalize] *)

Definition pg_normalize (str : option string) : string :=
  let str := if truthy str then py_str str else "" in
  let str := replace "-" "_" str in
  let str := replace "." "_" str in
  let str := replace " " "_" str in
  lower str.

(** ** [look4element] *)

(** The state of the first loop: [children], [sql] and [cols]. *)
Definition loop_state : Type := bool * string * option string.

Section Walk.

(** The global [USER_TYPES], as it stands when the walk runs. *)
Variable USER_TYPES : gmap string (option string).

(** The function the body calls where the source calls [look4element]
    again: element, [parent], [recurse_level], [fail], [normalize]. *)
Variable call :
  Element -> option string -> Z -> bool -> bool -> result (bool * string).

Variable root : Element.
Variable parent : option string.
Variable recurse_level : Z.
Variable fail normalize : bool.

(** [DEFX2P.get(k) or USER_TYPES.get(k) or None] *)
Definition lookup_type (k : string) : result (option string) :=
  d ← DEFX2P_get k;
  Ok (py_or (py_or d (mjoin (USER_TYPES !! k))) None).

(** The body of [for x in el.findall(ns + 'element')].  The nested
    calls are made without [normalize], which is then its default
    [True]. *)
Definition element_body (st : loop_state) (x : Element) : result loop_state :=
  let '(_, sql, cols) := st in
  let children := true in
  rez ← call x (py_or (get x "name") parent) (recurse_level + 1) fail true;
  let sql := sql +:+ rez.2 +:+ NL in
  if negb rez.1 then
    let thisType := py_or (py_or (get x "type") (get x "ref")) (Some "string") in
    let k := replace XMLS_PREFIX "" (py_str thisType) in
    pgType ← lookup_type k;
    if negb (truthy pgType) then
      let name := replace "dlican:" "" k in
      type_node ←
        find_named root "http://www.w3.org/2001/XMLSchema" "complexType" name;
      if node_truthy type_node then
        match type_node with
        | Some t =>
            rez ← call t (get t "name") (recurse_level + 1) fail true;
            Ok (children, sql +:+ rez.2 +:+ NL, cols)
        | None => Ok (children, sql, cols)
        end
      else Ok (children, sql, cols)
    else
      let colName := py_or (get x "name") (get x "ref") in
      let colName := if normalize then Some (pg_normalize colName) else colName in
      let col := py_str colName +:+ " " +:+ py_str pgType in
      let cols :=
        if negb (truthy cols) then Some col
        else Some (py_str cols +:+ ", " +:+ col) in
      Ok (children, sql, cols)
  else Ok (children, sql, cols).

(** The body of the loops over [complexType] and [sequence] children. *)
Definition nested_body (st : bool * string) (x : Element)
  : result (bool * string) :=
  let '(_, sql) := st in
  let children := true in
  rez ← call x (py_or (get x "name") parent) (recurse_level + 1) fail true;
  Ok (children, sql +:+ rez.2 +:+ NL).

(** The statement appended after the first loop: [if cols: sql += ...] *)
Definition create_table (cols : option string) : string :=
  if truthy cols
  then "CREATE TABLE " +:+ py_str parent +:+ " (" +:+ py_str cols +:+ ");"
  else "".

(** The function body below the recursion guard. *)
Definition look4element_body (ns : string) (el : Element)
  : result (bool * string) :=
  '(children, sql, cols) ←
    for_each element_body (findall el (ns +:+ "element")) (false, "", None);
  let sql := sql +:+ create_table cols in
  st ← for_each nested_body (findall el (ns +:+ "complexType")) (children, sql);
  st ← for_each nested_body (findall el (ns +:+ "sequence")) st;
  Ok st.

End Walk.

Arguments lookup_type : simpl never.

(** [look4element] with a bound on the number of nested frames.  The
    guard on [recurse_level] comes first, as in the source; a call that
    passes it needs one frame. *)
Fixpoint look4element_frames (frames : nat)
    (USER_TYPES : gmap string (option string))
    (root : Element) (ns : string) (el : Element) (parent : option string)
    (recurse_level : Z) (fail normalize : bool) : result (bool * string) :=
  if (MAX_RECURSE_LEVEL <? recurse_level)%Z then Raise MaxRecursion
  else
    match frames with
    | O => Raise RecursionError
    | S n =>
        look4element_body USER_TYPES
          (fun x p lvl f nrm =>
             look4element_frames n USER_TYPES root ns x p lvl f nrm)
          root parent recurse_level fail normalize ns el
    end.

(** A call at [recurse_level] nests at most [MAX_RECURSE_LEVEL + 1 -
    recurse_level] frames before the guard stops it, so this many
    frames are always enough (lemma [look4element_unfold] below). *)
Definition look4element (USER_TYPES : gmap string (option string))
    (root : Element) (ns : string) (el : Element) (parent : option string)
    (recurse_level : Z) (fail normalize : bool) : result (bool * string) :=
  look4element_frames (Z.to_nat (MAX_RECURSE_LEVEL + 1 - recurse_level))
    USER_TYPES root ns el parent recurse_level fail normalize.

(** ** [buildTypes] *)

(** The first loop: top-level elements with a name and a type. *)
Definition register_element (USER_TYPES : gmap string (option string))
    (el : Element) : result (gmap string (option string)) :=
  if truthy (get el "name") && truthy (get el "type") then
    v ← DEFX2P_get (replace XMLS_PREFIX "" (py_str (get el "type")));
    Ok (<[pg_normalize (get el "name") := v]> USER_TYPES)
  else Ok USER_TYPES.

(** The second loop: top-level simple types.  [restr.get('base')] on a
    missing restriction, and [.replace] on a missing base, are
    attribute errors. *)
Definition register_simpleType (ns : string)
    (USER_TYPES : gmap string (option string))
    (el : Element) : result (gmap string (option string)) :=
  match find el ("{" +:+ ns +:+ "}" +:+ "restriction") with
  | None => Raise AttributeError
  | Some restr =>
      match get restr "base" with
      | None => Raise AttributeError
      | Some base =>
          Ok (<[pg_normalize (get el "name") :=
                  Some (replace XMLS_PREFIX "" base)]> USER_TYPES)
      end
  end.

Definition buildTypes (ns : string) (root_element : Element)
    (USER_TYPES : gmap string (option string))
  : result (gmap string (option string)) :=
  USER_TYPES ← for_each register_element
    (findall root_element ("{" +:+ ns +:+ "}" +:+ "element")) USER_TYPES;
  for_each (register_simpleType ns)
    (findall root_element ("{" +:+ ns +:+ "}" +:+ "simpleType")) USER_TYPES.

(** ** The command-line wrapper, for one input file *)

(** [f.name.split('.')[0]] *)
Fixpoint before_dot (s : string) : string :=
  match s with
  | EmptyString => EmptyString
  | String c s' => if Ascii.eqb c "." then EmptyString else String c (before_dot s')
  end.

(** The part of [main] that handles one file [f]: register the
    user types, then walk the document from [recurse_level = 0] (the
    default, which [main] does not override).  The result carries the
    updated [USER_TYPES] and the pair returned by the walk. *)
Definition main_file (USER_TYPES : gmap string (option string))
    (fname : string) (xsd : Element) (failOnBadType as_is : bool)
  : result (gmap string (option string) * (bool * string)) :=
  USER_TYPES ← buildTypes "http://www.w3.org/2001/XMLSchema" xsd USER_TYPES;
  let norm := negb as_is in
  rez ← look4element USER_TYPES xsd XMLS xsd
          (Some (pg_normalize (Some (before_dot fname)))) 0 failOnBadType norm;
  Ok (USER_TYPES, rez).

(** What [print(result[1].replace('\n\n', ''))] writes, without the
    newline that [print] adds. *)
Definition printed (sql : string) : string := replace (NL +:+ NL) "" sql.

(** ** Vocabulary of the properties *)

(** What one of the two last loops appends to [sql]: the output of each
    nested call, each followed by a newline, in document order. *)
Fixpoint nested_output
    (call : Element -> option string -> Z -> bool -> bool -> result (bool * string))
    (parent : option string) (recurse_level : Z) (fail : bool)
    (xs : list Element) : result string :=
  match xs with
  | [] => Ok ""
  | x :: rest =>
      rez ← call x (py_or (get x "name") parent) (recurse_level + 1)%Z fail true;
      out ← nested_output call parent recurse_level fail rest;
      Ok (rez.2 +:+ NL +:+ out)
  end.

(** Position of the first occurrence of [pat] in [s]. *)
Fixpoint index_of (pat s : string) : option nat :=
  if starts_with pat s then Some 0%nat
  else
    match s with
    | EmptyString => None
    | String _ s' => S <$> index_of pat s'
    end.

(** Whether [pat] occurs in [s]. *)
Fixpoint occurs (pat s : string) : bool :=
  starts_with pat s
  || match s with
     | EmptyString => false
     | String _ s' => occurs pat s'
     end.

Fixpoint contains_char (c : ascii) (s : string) : bool :=
  match s with
  | EmptyString => false
  | String x s' => Ascii.eqb c x || contains_char c s'
  end.

(** A string that is empty or ends with a newline. *)
Definition ends_with_newline (s : string) : Prop :=
  s = "" \/ exists s', s = s' +:+ NL.

(** The keyword that starts every statement of the output. *)
Definition CREATE_TABLE : string := "CREATE TABLE".

(** The names the table maps to [None]. *)
Definition unsupported_names : list string :=
  [ "ID"; "IDREF"; "IDREFS"; "NOTATION"; "QName";
    "NMTOKEN"; "NMTOKENS"; "ENTITY"; "ENTITIES" ].

(** One activation of [look4element]: the node it walks, the table name
    it was given, its [recurse_level] and its [normalize] flag.  The
    document, the namespace, the registry and [fail] are the same in
    every activation of one walk. *)
Record frame : Type :=
  mkFrame {
    fr_el : Element;
    fr_parent : option string;
    fr_level : Z;
    fr_normalize : bool
  }.

(** The key under which the type of a leaf [x] is looked up. *)
Definition type_key (x : Element) : string :=
  replace XMLS_PREFIX ""
    (py_str (py_or (py_or (get x "type") (get x "ref")) (Some "string"))).


Section Calls.

Variable USER_TYPES : gmap string (option string).
Variable root : Element.
Variable ns : string.
Variable fail : bool.

(** The result of an activation. *)
Definition run (fr : frame) : result (bool * string) :=
  look4element USER_TYPES root ns (fr_el fr) (fr_parent fr) (fr_level fr)
    fail (fr_normalize fr).

(** The first loop of an activation, run over the items [xs]. *)
Definition element_loop (fr : frame) (xs : list Element) : result loop_state :=
  for_each
    (element_body USER_TYPES (look4element USER_TYPES root ns) root
       (fr_parent fr) (fr_level fr) fail (fr_normalize fr))
    xs (false, "", None).

(** One of the two last loops of an activation. *)
Definition nested_loop (fr : frame) (xs : list Element) (st : bool * string)
  : result (bool * string) :=
  for_each
    (nested_body (look4element USER_TYPES root ns) (fr_parent fr) (fr_level fr) fail)
    xs st.

(** The activation started for a child [x] in one of the loops. *)
Definition child_frame (fr : frame) (x : Element) : frame :=
  {| fr_el := x;
     fr_parent := py_or (get x "name") (fr_parent fr);
     fr_level := fr_level fr + 1;
     fr_normalize := true |}.

(** [invokes fr fr']: the activation [fr] passes its guard and, in
    the course of its execution, makes the call [fr'].  There is one
    rule for each of the four call sites; the premises say that the
    execution reaches the call site, that is, that everything before
    it returned. *)
Inductive invokes : frame -> frame -> Prop :=
  | invokes_element fr pre x post st :
      (fr_level fr <= MAX_RECURSE_LEVEL)%Z ->
      findall (fr_el fr) (ns +:+ "element") = (pre ++ x :: post)%list ->
      element_loop fr pre = Ok st ->
      invokes fr (child_frame fr x)
  | invokes_named_type fr pre x post st s pgType t :
      (fr_level fr <= MAX_RECURSE_LEVEL)%Z ->
      findall (fr_el fr) (ns +:+ "element") = (pre ++ x :: post)%list ->
      element_loop fr pre = Ok st ->
      run (child_frame fr x) = Ok (false, s) ->
      lookup_type USER_TYPES (type_key x) = Ok pgType ->
      truthy pgType = false ->
      find_named root "http://www.w3.org/2001/XMLSchema" "complexType"
        (replace "dlican:" "" (type_key x)) = Ok (Some t) ->
      node_truthy (Some t) = true ->
      invokes fr
        {| fr_el := t;
           fr_parent := get t "name";
           fr_level := fr_level fr + 1;
           fr_normalize := true |}
  | invokes_complexType fr c sql cols pre x post st :
      (fr_level fr <= MAX_RECURSE_LEVEL)%Z ->
      element_loop fr (findall (fr_el fr) (ns +:+ "element")) = Ok (c, sql, cols) ->
      findall (fr_el fr) (ns +:+ "complexType") = (pre ++ x :: post)%list ->
      nested_loop fr pre (c, sql +:+ create_table (fr_parent fr) cols) = Ok st ->
      invokes fr (child_frame fr x)
  | invokes_sequence fr c sql cols st1 pre x post st :
      (fr_level fr <= MAX_RECURSE_LEVEL)%Z ->
      element_loop fr (findall (fr_el fr) (ns +:+ "element")) = Ok (c, sql, cols) ->
      nested_loop fr (findall (fr_el fr) (ns +:+ "complexType"))
        (c, sql +:+ create_table (fr_parent fr) cols) = Ok st1 ->
      findall (fr_el fr) (ns +:+ "sequence") = (pre ++ x :: post)%list ->
      nested_loop fr pre st1 = Ok st ->
      invokes fr (child_frame fr x).

End Calls.

(** The wrapper's call: the document root, the table name taken from
    the file name, [recurse_level] at its default 0. *)
Definition root_frame (fname : string) (xsd : Element) (as_is : bool) : frame :=
  {| fr_el := xsd;
     fr_parent := Some (pg_normalize (Some (before_dot fname)));
     fr_level := 0;
     fr_normalize := negb as_is |}.

(** ** Documents used in the examples *)

Definition xs (local : string) (attrs : list (string * string))
    (kids : list Element) : Element :=
  mkElement (ElementTag (XMLS +:+ local)) (list_to_map attrs) kids.

(** A schema with one leaf element of an unsupported type. *)
Definition id_xsd : Element :=
  xs "schema" []
    [ xs "element" [("name", "Key"); ("type", "xs:ID")] [];
      xs "element" [("name", "Label"); ("type", "xs:string")] [] ].

(** A schema with a leaf whose type is neither built in, nor
    registered, nor the name of a complex type. *)
Definition unknown_xsd : Element :=
  xs "schema" []
    [ xs "element" [("name", "Item"); ("type", "xs:widget")] [];
      xs "element" [("name", "Label"); ("type", "xs:string")] [] ].

(** A schema with a named simple type restricting [xs:string], and a
    leaf of that type. *)
Definition simple_xsd : Element :=
  xs "schema" []
    [ xs "simpleType" [("name", "MyStr")]
        [ xs "restriction" [("base", "xs:string")] [] ];
      xs "element" [("name", "Note"); ("type", "mystr")] [] ].

(** The schema of the end-to-end example: root element [Order] with
    the leaves [OrderId] and [Customer-Name]. *)
Definition order_xsd : Element :=
  xs "schema" []
    [ xs "element" [("name", "Order")]
        [ xs "complexType" []
            [ xs "sequence" []
                [ xs "element" [("name", "OrderId"); ("type", "xs:integer")] [];
                  xs "element" [("name", "Customer-Name"); ("type", "xs:string")] []
                ] ] ] ].

Definition order_statement (table : string) : string :=
  "CREATE TABLE " +:+ table +:+ " (orderid integer, customer_name varchar);".

(** A schema in which the table [B] is nested in the table [A]. *)
Definition nested_A : Element :=
  xs "element" [("name", "A")]
    [ xs "element" [("name", "a"); ("type", "xs:integer")] [];
      xs "element" [("name", "B")]
        [ xs "element" [("name", "b"); ("type", "xs:string")] [] ] ].

Definition nested_xsd : Element := xs "schema" [] [ nested_A ].

(** A schema whose complex type [T] contains an element of type [T]. *)
Definition cyc_f : Element := xs "element" [("name", "f"); ("type", "T")] [].
Definition cyc_T : Element := xs "complexType" [("name", "T")] [ cyc_f ].
Definition cyc_e : Element := xs "element" [("name", "e"); ("type", "T")] [].
Definition cyclic_xsd : Element := xs "schema" [] [ cyc_e; cyc_T ].

(** A schema with a leaf whose type names a complex type that has no
    children. *)
Definition empty_item : Element :=
  xs "element" [("name", "Item"); ("type", "Empty")] [].

Definition empty_xsd : Element :=
  xs "schema" []
    [ empty_item;
      xs "complexType" [("name", "Empty")] [] ].

(** The same schema with a comment inside the complex type. *)
Definition comment_xsd : Element :=
  xs "schema" []
    [ empty_item;
      xs "complexType" [("name", "Empty")] [ mkElement CommentTag ∅ [] ] ].

(** A schema whose leaf names a type with an apostrophe, declared
    without children. *)
Definition quoted_item : Element :=
  xs "element" [("name", "Item"); ("type", "It's")] [].

Definition quoted_xsd : Element :=
  xs "schema" []
    [ quoted_item;
      xs "complexType" [("name", "It's")] [] ].

(** A schema whose only leaf has an unresolvable type. *)
Definition dropped_xsd : Element :=
  xs "schema" [] [ xs "element" [("name", "Item"); ("type", "xs:widget")] [] ].

(** ** Vocabulary of the further properties *)

(** A string transformed character by character. *)
Fixpoint string_map (f : ascii -> ascii) (s : string) : string :=
  match s with
  | EmptyString => EmptyString
  | String c s' => String (f c) (string_map f s')
  end.

(** Whether every character of a string passes a test. *)
Fixpoint string_forall (p : ascii -> bool) (s : string) : bool :=
  match s with
  | EmptyString => true
  | String c s' => p c && string_forall p s'
  end.

Definition swap_char (a b c : ascii) : ascii :=
  if Ascii.eqb a c then b else c.

(** What [pg_normalize] makes of one character. *)
Definition pg_char (c : ascii) : ascii :=
  lower_char (swap_char " " "_" (swap_char "." "_" (swap_char "-" "_" c))).

(** The characters [pg_normalize] leaves alone. *)
Definition pg_clean (c : ascii) : bool := Ascii.eqb (pg_char c) c.

(** The children of a node that the three loops of [look4element]
    visit, in the order in which they are visited. *)
Definition structural_children (ns : string) (el : Element) : list Element :=
  (findall el (ns +:+ "element") ++ findall el (ns +:+ "complexType")
   ++ findall el (ns +:+ "sequence"))%list.

(** Strings joined with a separator, as [sep.join(l)]. *)
Fixpoint join (sep : string) (l : list string) : string :=
  match l with
  | [] => ""
  | a :: rest =>
      match rest with
      | [] => a
      | _ :: _ => a +:+ sep +:+ join sep rest
      end
  end.

(** [n] newlines. *)
Fixpoint newlines (n : nat) : string :=
  match n with
  | O => ""
  | S k => NL +:+ newlines k
  end.

(** The column a leaf [x] of column type [ty] stands for: its [name]
    or [ref], normalized when [normalize] is set, and the type. *)
Definition column (normalize : bool) (x : Element) (ty : string) : string :=
  let colName := py_or (get x "name") (get x "ref") in
  py_str (if normalize then Some (pg_normalize colName) else colName)
  +:+ " " +:+ ty.

(** A leaf whose type resolves to the column type [ty]. *)
Definition resolved_leaf (USER_TYPES : gmap string (option string))
    (ns : string) (x : Element) (ty : string) : Prop :=
  structural_children ns x = []
  /\ lookup_type USER_TYPES (type_key x) = Ok (Some ty).

(** A node through which the walk only passes on its way to [c]: no
    [element] child, one [complexType] or [sequence] child [c], and
    [c] without a name. *)
Definition wrapper (ns : string) (el c : Element) : Prop :=
  findall el (ns +:+ "element") = []
  /\ ((findall el (ns +:+ "complexType") = [c]
       /\ findall el (ns +:+ "sequence") = [])
      \/ (findall el (ns +:+ "complexType") = []
          /\ findall el (ns +:+ "sequence") = [c]))
  /\ truthy (get c "name") = false.

(** The parts of [order_xsd]. *)
Definition order_sequence : Element :=
  xs "sequence" []
    [ xs "element" [("name", "OrderId"); ("type", "xs:integer")] [];
      xs "element" [("name", "Customer-Name"); ("type", "xs:string")] [] ].

Definition order_complexType : Element := xs "complexType" [] [ order_sequence ].

Definition order_element : Element :=
  xs "element" [("name", "Order")] [ order_complexType ].

(** A schema with two leaves at the top. *)
Definition flat_xsd : Element :=
  xs "schema" []
    [ xs "element" [("name", "OrderId"); ("type", "xs:integer")] [];
      xs "element" [("name", "Customer-Name"); ("type", "xs:string")] [] ].

(** The key under which [buildTypes] registers a declaration. *)
Definition registry_key (el : Element) : string :=
  pg_normalize (get el "name").

(** A simple type that [buildTypes] can register: it has a
    [restriction] child with a [base] attribute. *)
Definition restricts (ns : string) (el : Element) (base : string) : Prop :=
  exists restr,
    find el ("{" +:+ ns +:+ "}" +:+ "restriction") = Some restr
    /\ get restr "base" = Some base.

(** A top-level element that [buildTypes] cannot register: it has a
    name and a type, and the type is a key that [DEFX2P] stores with
    [None]. *)
Definition unsupported_element (el : Element) : Prop :=
  truthy (get el "name") = true
  /\ truthy (get el "type") = true
  /\ DEFX2P !! replace XMLS_PREFIX "" (py_str (get el "type")) = Some None.

(** ** The end of [main] *)

(** [str(v)] for a value that is an [int] or [None]. *)
Definition py_str_int (v : option Z) : string :=
  match v with
  | Some z => NilZero.string_of_int (Z.to_int z)
  | None => "None"
  end.

(** The connection string [main] builds.  Both [if]s test
    [db_username], and both append under the key [user]. *)
Definition connect_dsn (db_name db_host : option string) (db_port : option Z)
    (db_username db_password : option string) : string :=
  let dsn :=
    "dbname=" +:+ py_str db_name +:+ " host=" +:+ py_str db_host
    +:+ " port=" +:+ py_str_int db_port in
  let dsn :=
    if truthy db_username then dsn +:+ "user=" +:+ py_str db_username else dsn in
  let dsn :=
    if truthy db_username then dsn +:+ "user=" +:+ py_str db_password else dsn in
  dsn.

(** What [main] does with the result of the last walk: print it, run
    it against the database, or raise [Exception("This shouldn't
    happen.")]. *)
Inductive main_outcome : Type :=
  | Printed (text : string)
  | Executed (dsn sql : string)
  | ShouldNotHappen.

Definition main_report (result : bool * string)
    (db_name db_host : option string) (db_port : option Z)
    (db_username db_password : option string) : main_outcome :=
  if truthy (Some result.2) && negb (truthy db_name) then
    Printed (printed result.2)
  else if truthy (Some result.2) then
    Executed (connect_dsn db_name db_host db_port db_username db_password)
      result.2
  else ShouldNotHappen.

(** A schema that declares a simple type and nothing else. *)
Definition types_only_xsd : Element :=
  xs "schema" []
    [ xs "simpleType" [("name", "Code")]
        [ xs "restriction" [("base", "xs:string")] [] ] ].

(** ** The output of one activation, part by part *)

(** What the first loop makes of one child element [x]: the text it
    appends to [sql], and the column it adds to [cols], if any.  The
    text is the output of the call on [x] and a newline, followed, for
    a leaf of an unresolved type that names a top-level [complexType]
    with children, by the output of the call on that type and a
    newline. *)
Definition element_part (USER_TYPES : gmap string (option string))
    (call : Element -> option string -> Z -> bool -> bool -> result (bool * string))
    (root : Element) (parent : option string) (recurse_level : Z)
    (fail normalize : bool) (x : Element) : result (string * option string) :=
  rez ← call x (py_or (get x "name") parent) (recurse_level + 1)%Z fail true;
  if negb rez.1 then
    pgType ← lookup_type USER_TYPES (type_key x);
    if negb (truthy pgType) then
      type_node ←
        find_named root "http://www.w3.org/2001/XMLSchema" "complexType"
          (replace "dlican:" "" (type_key x));
      match type_node with
      | Some t =>
          if node_truthy (Some t) then
            rez' ← call t (get t "name") (recurse_level + 1)%Z fail true;
            Ok (rez.2 +:+ NL +:+ rez'.2 +:+ NL, None)
          else Ok (rez.2 +:+ NL, None)
      | None => Ok (rez.2 +:+ NL, None)
      end
    else Ok (rez.2 +:+ NL, Some (column normalize x (py_str pgType)))
  else Ok (rez.2 +:+ NL, None).

(** The parts of the child elements, in document order. *)
Fixpoint element_parts (USER_TYPES : gmap string (option string))
    (call : Element -> option string -> Z -> bool -> bool -> result (bool * string))
    (root : Element) (parent : option string) (recurse_level : Z)
    (fail normalize : bool) (xs : list Element)
  : result (list (string * option string)) :=
  match xs with
  | [] => Ok []
  | x :: rest =>
      p ← element_part USER_TYPES call root parent recurse_level fail normalize x;
      ps ← element_parts USER_TYPES call root parent recurse_level fail normalize rest;
      Ok (p :: ps)
  end.

(** Strings put one after the other. *)
Definition concat_all (l : list string) : string := fold_right append "" l.

(** The columns among the parts. *)
Fixpoint columns_of (parts : list (string * option string)) : list string :=
  match parts with
  | [] => []
  | (_, Some col) :: rest => col :: columns_of rest
  | (_, None) :: rest => columns_of rest
  end.

(** [cols] after one more part. *)
Definition add_column (cols col : option string) : option string :=
  match col with
  | Some c =>
      if negb (truthy cols) then Some c else Some (py_str cols +:+ ", " +:+ c)
  | None => cols
  end.

(** [cols] once the columns of the list have been added. *)
Definition cols_of (columns : list string) : option string :=
  match columns with
  | [] => None
  | _ :: _ => Some (join ", " columns)
  end.

(** The statement of a node with the given columns: none without
    columns. *)
Definition own_statement (parent : option string) (columns : list string)
  : string :=
  match columns with
  | [] => ""
  | _ :: _ =>
      "CREATE TABLE " +:+ py_str parent +:+ " (" +:+ join ", " columns +:+ ");"
  end.

(** ** Chains of nested elements *)

(** An element [e] that holds an element [e] and so on, [n] times; the
    innermost is a leaf of the default type. *)
Fixpoint chain (n : nat) : Element :=
  match n with
  | O => xs "element" [("name", "e")] []
  | S k => xs "element" [("name", "e")] [ chain k ]
  end.

(** A schema with such a chain: the root is walked at level 0, the
    outermost [e] at level 1 and the innermost at level [n + 1]. *)
Definition chain_xsd (n : nat) : Element := xs "schema" [] [ chain n ].

(** * Properties *)

(** ** The model on small inputs *)

Example get_int : DEFX2P_get "int" = Ok (Some "integer").
Proof. vm_compute. reflexivity. Qed.

Example get_ID : DEFX2P_get "ID" = Raise TypeError.
Proof. vm_compute. reflexivity. Qed.

Example get_unknown : DEFX2P_get "Order" = Ok None.
Proof. vm_compute. reflexivity. Qed.

Example replace_prefix : replace "xs:" "" "xs:integer" = "integer".
Proof. reflexivity. Qed.

Example normalize_foo_bar : pg_normalize (Some "Foo-Bar") = "foo_bar".
Proof. reflexivity. Qed.

(** ** Basic facts about results and loops *)

Lemma bind_Ok {A B : Type} (a : A) (k : A -> result B) : (Ok a ≫= k) = k a.
Proof. reflexivity. Qed.

Lemma bind_Raise {A B : Type} (e : exn) (k : A -> result B) :
  (Raise e ≫= k) = Raise e.
Proof. reflexivity. Qed.

Lemma bind_ext {A B : Type} (m : result A) (k1 k2 : A -> result B) :
  (forall a, k1 a = k2 a) -> (m ≫= k1) = (m ≫= k2).
Proof. intros H. destruct m as [a|e]; [apply H | reflexivity]. Qed.

Ltac run_bind := repeat (rewrite bind_Ok || rewrite bind_Raise); cbv beta.

Lemma for_each_app {S X : Type} (body : S -> X -> result S) (xs ys : list X) (s : S) :
  for_each body (xs ++ ys) s = (for_each body xs s ≫= for_each body ys).
Proof.
  revert s. induction xs as [|x xs IH]; intros s; simpl; [reflexivity|].
  destruct (body s x) as [s'|e]; simpl; [apply IH | reflexivity].
Qed.

Lemma for_each_ext {S X : Type} (body1 body2 : S -> X -> result S) (xs : list X) (s : S) :
  (forall s' x, body1 s' x = body2 s' x) ->
  for_each body1 xs s = for_each body2 xs s.
Proof.
  intros Hext. revert s. induction xs as [|x xs IH]; intros s; simpl; [reflexivity|].
  rewrite Hext. destruct (body2 s x); simpl; [apply IH | reflexivity].
Qed.

(** A loop that raised on the item after [pre] raised as a whole. *)
Lemma for_each_raise {S X : Type} (body : S -> X -> result S)
    (pre post : list X) (x : X) (s s' : S) (e : exn) :
  for_each body pre s = Ok s' -> body s' x = Raise e ->
  for_each body (pre ++ x :: post) s = Raise e.
Proof.
  intros Hpre Hx. rewrite for_each_app, Hpre. simpl. rewrite Hx. reflexivity.
Qed.

(** ** Facts about strings *)

(** stdpp keeps [+:+] folded under [simpl]; these two equations unfold
    it one step. *)
Lemma append_nil_l (s : string) : "" +:+ s = s.
Proof. reflexivity. Qed.

Lemma append_cons (c : ascii) (a b : string) :
  String c a +:+ b = String c (a +:+ b).
Proof. reflexivity. Qed.

Lemma length_append (a b : string) :
  String.length (a +:+ b) = (String.length a + String.length b)%nat.
Proof.
  induction a as [|c a IH]; [reflexivity|].
  rewrite append_cons. simpl. now rewrite IH.
Qed.

Lemma append_cancel_r (a b c : string) : a +:+ c = b +:+ c -> a = b.
Proof.
  revert b. induction a as [|x a IH]; intros [|y b] H;
    rewrite ?append_cons, ?append_nil_l in H.
  - reflexivity.
  - apply (f_equal String.length) in H. simpl in H.
    rewrite (length_append b c) in H. lia.
  - apply (f_equal String.length) in H. simpl in H.
    rewrite (length_append a c) in H. lia.
  - injection H as -> H. f_equal. now apply IH.
Qed.

Lemma append_assoc (a b c : string) : (a +:+ b) +:+ c = a +:+ b +:+ c.
Proof.
  induction a as [|x a IH]; [reflexivity|].
  rewrite !append_cons. now rewrite IH.
Qed.

Lemma append_empty_r (a : string) : a +:+ "" = a.
Proof.
  induction a as [|x a IH]; [reflexivity|].
  rewrite append_cons. now rewrite IH.
Qed.

(** ** The walk depends on [call] only one level down *)

Section BodyExt.

Variable USER_TYPES : gmap string (option string).
Variables call1 call2 :
  Element -> option string -> Z -> bool -> bool -> result (bool * string).
Variable root : Element.
Variable parent : option string.
Variable recurse_level : Z.
Variables fail1 fail2 : bool.
Variable normalize : bool.

(** Every nested call is made at [recurse_level + 1], with the
    caller's [fail] and with [normalize = True]. *)
Hypothesis calls_agree : forall x p,
  call1 x p (recurse_level + 1)%Z fail1 true
  = call2 x p (recurse_level + 1)%Z fail2 true.

Lemma element_body_ext st x :
  element_body USER_TYPES call1 root parent recurse_level fail1 normalize st x
  = element_body USER_TYPES call2 root parent recurse_level fail2 normalize st x.
Proof.
  unfold element_body. destruct st as [[c sql] cols]. cbv beta iota zeta.
  rewrite calls_agree. apply bind_ext. intros rez.
  destruct (negb rez.1); [|reflexivity].
  apply bind_ext. intros pgType.
  destruct (negb (truthy pgType)); [|reflexivity].
  apply bind_ext. intros [t|]; [|reflexivity].
  destruct (node_truthy _); [|reflexivity].
  rewrite calls_agree. reflexivity.
Qed.

Lemma nested_body_ext st x :
  nested_body call1 parent recurse_level fail1 st x
  = nested_body call2 parent recurse_level fail2 st x.
Proof.
  unfold nested_body. destruct st as [c sql]. cbv beta iota zeta.
  rewrite calls_agree. reflexivity.
Qed.

Lemma look4element_body_ext ns el :
  look4element_body USER_TYPES call1 root parent recurse_level fail1 normalize ns el
  = look4element_body USER_TYPES call2 root parent recurse_level fail2 normalize ns el.
Proof.
  unfold look4element_body.
  rewrite (for_each_ext _ _ _ _ element_body_ext).
  apply bind_ext. intros [[c sql] cols].
  rewrite (for_each_ext _ _ _ _ nested_body_ext).
  apply bind_ext. intros st.
  rewrite (for_each_ext _ _ _ _ nested_body_ext). reflexivity.
Qed.

End BodyExt.

(** The defining equation of [look4element]: the guard, then the body
    with the nested calls made by [look4element] itself.  The frame
    bound never runs out. *)
Lemma look4element_unfold USER_TYPES root ns el parent recurse_level fail normalize :
  look4element USER_TYPES root ns el parent recurse_level fail normalize
  = if (MAX_RECURSE_LEVEL <? recurse_level)%Z then Raise MaxRecursion
    else look4element_body USER_TYPES (look4element USER_TYPES root ns)
           root parent recurse_level fail normalize ns el.
Proof.
  unfold look4element at 1.
  destruct (Z.ltb_spec MAX_RECURSE_LEVEL recurse_level) as [Hgt|Hle].
  - destruct (Z.to_nat _); cbn [look4element_frames];
      (destruct (Z.ltb_spec MAX_RECURSE_LEVEL recurse_level); [reflexivity | lia]).
  - replace (Z.to_nat (MAX_RECURSE_LEVEL + 1 - recurse_level))
      with (S (Z.to_nat (MAX_RECURSE_LEVEL + 1 - (recurse_level + 1)))) by lia.
    cbn [look4element_frames].
    destruct (Z.ltb_spec MAX_RECURSE_LEVEL recurse_level); [lia|].
    apply look4element_body_ext. intros x p. reflexivity.
Qed.

Lemma look4element_over_limit USER_TYPES root ns el parent recurse_level fail normalize :
  (MAX_RECURSE_LEVEL < recurse_level)%Z ->
  look4element USER_TYPES root ns el parent recurse_level fail normalize
  = Raise MaxRecursion.
Proof.
  intros H. rewrite look4element_unfold.
  destruct (Z.ltb_spec MAX_RECURSE_LEVEL recurse_level); [reflexivity | lia].
Qed.

Lemma look4element_within_limit USER_TYPES root ns el parent recurse_level fail normalize :
  (recurse_level <= MAX_RECURSE_LEVEL)%Z ->
  look4element USER_TYPES root ns el parent recurse_level fail normalize
  = look4element_body USER_TYPES (look4element USER_TYPES root ns)
      root parent recurse_level fail normalize ns el.
Proof.
  intros H. rewrite look4element_unfold.
  destruct (Z.ltb_spec MAX_RECURSE_LEVEL recurse_level); [lia | reflexivity].
Qed.

Lemma look4element_frames_fail frames :
  forall USER_TYPES root ns el parent recurse_level fail1 fail2 normalize,
    look4element_frames frames USER_TYPES root ns el parent recurse_level
      fail1 normalize
    = look4element_frames frames USER_TYPES root ns el parent recurse_level
        fail2 normalize.
Proof.
  induction frames as [|n IH]; intros; cbn [look4element_frames];
    destruct (MAX_RECURSE_LEVEL <? recurse_level)%Z; try reflexivity.
  apply look4element_body_ext. intros x p. apply IH.
Qed.

(** ** The type resolver *)

(** Two nested [__getitem__] frames are enough for every key of the
    table, and for every string that is not a key: the limit on the
    depth of the interpreter's stack plays no role. *)
Lemma DEFX2P_two_frames (d : nat) (k : string) :
  SDict_getitem (S (S d)) DEFX2P k = SDict_getitem 2 DEFX2P k.
Proof.
  destruct (DEFX2P !! k) as [v|] eqn:E.
  - apply elem_of_list_to_map_2 in E. unfold DEFX2P_items in E.
    repeat (apply elem_of_cons in E as [E|E]);
      try (pose proof (f_equal fst E) as Hk; cbn [fst] in Hk; subst k;
           vm_compute; reflexivity).
    inversion E.
  - cbn [SDict_getitem]. now rewrite E.
Qed.

Lemma DEFX2P_get_two_frames (k : string) :
  DEFX2P_get k = SDict_get 2 DEFX2P k.
Proof.
  unfold DEFX2P_get, SDict_get, PY_RECURSION_LIMIT.
  now rewrite (DEFX2P_two_frames 998 k).
Qed.

(** C1 (the code departs from the claim): each of ID, IDREF, IDREFS,
    NOTATION, QName, NMTOKEN, NMTOKENS, ENTITY and ENTITIES is a key of
    [DEFX2P] whose stored value is [None], and [DEFX2P.get] of it does
    not return [None]: it raises [TypeError], because [None % self] is
    evaluated and only [KeyError] is caught.  The walk of a schema with
    such a leaf raises the same exception instead of dropping the
    field. *)
Theorem C1_unsupported_lookup_raises :
  Forall (fun k => DEFX2P !! k = Some None /\ DEFX2P_get k = Raise TypeError)
    unsupported_names
  /\ look4element ∅ id_xsd XMLS id_xsd (Some "doc") 0 false true
     = Raise TypeError.
Proof.
  split.
  - unfold unsupported_names. repeat constructor; vm_compute; reflexivity.
  - vm_compute. reflexivity.
Qed.

(** C8: a key of [DEFX2P] whose entry is the placeholder [%(t)s]
    resolves to the column type stored for [t], returned as the literal
    it is stored as, and so to the same value as resolving [t]
    directly. *)
Theorem C8_alias_resolves_like_target (k t : string) :
  DEFX2P !! k = Some (Some ("%(" +:+ t +:+ ")s")) ->
  exists lit,
    DEFX2P !! t = Some (Some lit)
    /\ DEFX2P_get t = Ok (Some lit)
    /\ DEFX2P_get k = Ok (Some lit)
    /\ DEFX2P_get k = DEFX2P_get t.
Proof.
  intros H. apply elem_of_list_to_map_2 in H. unfold DEFX2P_items in H.
  repeat (apply elem_of_cons in H as [H|H]);
    try (pose proof (f_equal fst H) as Hk; pose proof (f_equal snd H) as Hfmt;
         cbn [fst snd] in Hk, Hfmt; clear H;
         rewrite !append_cons, append_nil_l in Hfmt;
         try discriminate Hfmt;
         injection Hfmt as Hfmt;
         first [ apply (append_cancel_r t "string" ")s") in Hfmt
               | apply (append_cancel_r t "integer" ")s") in Hfmt ];
         subst k t;
         first [ solve [exists "varchar"; vm_compute; auto]
               | solve [exists "integer"; vm_compute; auto] ]).
  inversion H.
Qed.

Lemma C8_alias_resolves_like_target_witness :
  DEFX2P !! "int" = Some (Some ("%(" +:+ "integer" +:+ ")s"))
  /\ exists lit,
       DEFX2P !! "integer" = Some (Some lit)
       /\ DEFX2P_get "integer" = Ok (Some lit)
       /\ DEFX2P_get "int" = Ok (Some lit)
       /\ DEFX2P_get "int" = DEFX2P_get "integer".
Proof.
  split.
  - vm_compute. reflexivity.
  - apply (C8_alias_resolves_like_target "int" "integer").
    vm_compute. reflexivity.
Defined.

(** ** The flags [fail] and [normalize], user types, and the end-to-end example *)

(** C2 (the code departs from the claim): [fail] is accepted and handed
    on to every nested call but never read, and [InvalidXMLType] is
    never raised.  The walk returns the same result for [fail=True] as
    for [fail=False]; on a schema with an unresolvable leaf type it
    returns normally with the field dropped. *)
Theorem C2_fail_flag_has_no_effect :
  (forall USER_TYPES root ns el parent recurse_level fail normalize,
      look4element USER_TYPES root ns el parent recurse_level fail normalize
      = look4element USER_TYPES root ns el parent recurse_level false normalize)
  /\ look4element ∅ unknown_xsd XMLS unknown_xsd (Some "doc") 0 true true
     = Ok (true, NL +:+ NL +:+ "CREATE TABLE doc (label varchar);").
Proof.
  split.
  - intros. unfold look4element. apply look4element_frames_fail.
  - vm_compute. reflexivity.
Qed.

(** C3 (the code departs from the claim): for a top-level simple type
    [buildTypes] stores the name of the base with the [xs:] prefix
    removed, not the column type the table gives for that base.  For
    [MyStr] restricting [xs:string] the registry holds ["string"] where
    the built-in lookup of the base gives ["varchar"], and a leaf of
    that type becomes a column of type [string]. *)
Theorem C3_simpleType_registered_as_base_name :
  (USER_TYPES ← buildTypes "http://www.w3.org/2001/XMLSchema" simple_xsd ∅;
   Ok (USER_TYPES !! "mystr")) = Ok (Some (Some "string"))
  /\ DEFX2P_get "string" = Ok (Some "varchar")
  /\ (r ← main_file ∅ "doc.xsd" simple_xsd false false; Ok r.2)
     = Ok (true, NL +:+ "CREATE TABLE doc (note string);").
Proof. repeat split; vm_compute; reflexivity. Qed.

(** C4 (the code departs from the claim): the nested calls are made
    without the [normalize] argument, so below the root the default
    [True] applies.  With [normalize=False] at the root, the leaves of
    [Order] are still emitted as [orderid] and [customer_name], the same
    output as with [normalize=True]; and in general a call behaves as if
    each of its nested calls had been given [normalize=True]. *)
Theorem C4_normalize_not_passed_down :
  look4element ∅ order_xsd XMLS order_xsd (Some "order") 0 false false
  = Ok (true, NL +:+ NL +:+ order_statement "Order" +:+ NL +:+ NL +:+ NL)
  /\ look4element ∅ order_xsd XMLS order_xsd (Some "order") 0 false false
     = look4element ∅ order_xsd XMLS order_xsd (Some "order") 0 false true
  /\ (forall USER_TYPES root ns el parent recurse_level fail normalize,
        (recurse_level <= MAX_RECURSE_LEVEL)%Z ->
        look4element USER_TYPES root ns el parent recurse_level fail normalize
        = look4element_body USER_TYPES
            (fun x p lvl f _ => look4element USER_TYPES root ns x p lvl f true)
            root parent recurse_level fail normalize ns el).
Proof.
  split; [vm_compute; reflexivity|]. split; [vm_compute; reflexivity|].
  intros. rewrite look4element_within_limit by assumption.
  apply look4element_body_ext. reflexivity.
Qed.



(** ** The order of the statements in the output *)

Lemma nested_body_eq call parent recurse_level fail children sql x :
  nested_body call parent recurse_level fail (children, sql) x
  = (rez ← call x (py_or (get x "name") parent) (recurse_level + 1)%Z fail true;
     Ok (true, sql +:+ rez.2 +:+ NL)).
Proof. reflexivity. Qed.

Lemma for_each_nested_body call parent recurse_level fail xs :
  forall children sql,
    for_each (nested_body call parent recurse_level fail) xs (children, sql)
    = (out ← nested_output call parent recurse_level fail xs;
       Ok (match xs with [] => children | _ :: _ => true end, sql +:+ out)).
Proof.
  induction xs as [|x xs IH]; intros children sql;
    cbn [for_each nested_output].
  - run_bind. now rewrite append_empty_r.
  - rewrite nested_body_eq.
    destruct (call x _ _ _ _) as [rez|e]; run_bind; [|reflexivity].
    rewrite IH.
    destruct (nested_output _ _ _ _ xs) as [out|e]; run_bind; [|reflexivity].
    rewrite !append_assoc. now destruct xs.
Qed.

Lemma nested_output_ends call parent recurse_level fail xs out :
  nested_output call parent recurse_level fail xs = Ok out ->
  ends_with_newline out.
Proof.
  revert out. induction xs as [|x xs IH]; intros out; cbn [nested_output].
  - run_bind. intros [= <-]. now left.
  - destruct (call x _ _ _ _) as [rez|e]; run_bind; [|discriminate].
    destruct (nested_output _ _ _ _ xs) as [out'|e]; run_bind; [|discriminate].
    intros [= <-]. destruct (IH out' eq_refl) as [->|[s' ->]].
    + right. exists rez.2. now rewrite append_empty_r.
    + right. exists (rez.2 +:+ NL +:+ s'). now rewrite !append_assoc.
Qed.

Lemma element_body_sql USER_TYPES call root parent recurse_level fail normalize
    c0 sql0 cols0 x c sql cols :
  element_body USER_TYPES call root parent recurse_level fail normalize
    (c0, sql0, cols0) x = Ok (c, sql, cols) ->
  c = true /\ exists d, sql = sql0 +:+ d +:+ NL.
Proof.
  unfold element_body. cbv beta iota zeta.
  destruct (call x _ _ _ _) as [rez|e]; run_bind; [|discriminate].
  destruct (negb rez.1).
  2: { intros [= <- <- <-]. split; [reflexivity | now exists rez.2]. }
  destruct (lookup_type _ _) as [pgType|e]; run_bind; [|discriminate].
  destruct (negb (truthy pgType)).
  2: { intros [= <- <- <-]. split; [reflexivity | now exists rez.2]. }
  destruct (find_named _ _ _ _) as [[t|]|e]; run_bind; [| |discriminate].
  2: { intros [= <- <- <-]. split; [reflexivity | now exists rez.2]. }
  destruct (node_truthy _).
  2: { intros [= <- <- <-]. split; [reflexivity | now exists rez.2]. }
  destruct (call t _ _ _ _) as [rez'|e]; run_bind; [|discriminate].
  intros [= <- <- <-]. split; [reflexivity|].
  exists (rez.2 +:+ NL +:+ rez'.2). now rewrite !append_assoc.
Qed.

(** The first loop only appends to [sql], and what it appends is empty
    or ends with a newline. *)
Lemma element_loop_sql USER_TYPES call root parent recurse_level fail normalize xs :
  forall c0 sql0 cols0 c sql cols,
    for_each (element_body USER_TYPES call root parent recurse_level fail normalize)
      xs (c0, sql0, cols0) = Ok (c, sql, cols) ->
    c = match xs with [] => c0 | _ :: _ => true end
    /\ exists d, sql = sql0 +:+ d /\ ends_with_newline d.
Proof.
  induction xs as [|x xs IH]; intros c0 sql0 cols0 c sql cols; cbn [for_each].
  - intros [= <- <- <-]. split; [reflexivity|].
    exists "". split; [now rewrite append_empty_r | now left].
  - destruct (element_body _ _ _ _ _ _ _ _ x) as [[[c1 sql1] cols1]|e] eqn:E;
      run_bind; [|discriminate].
    intros H. apply element_body_sql in E as [-> [d1 ->]].
    apply IH in H as [Hc [d2 [-> Hd2]]].
    split; [now destruct xs|].
    exists (d1 +:+ NL +:+ d2). split; [now rewrite !append_assoc|].
    destruct Hd2 as [->|[s' ->]].
    + right. exists d1. now rewrite append_empty_r.
    + right. exists (d1 +:+ NL +:+ s'). now rewrite !append_assoc.
Qed.

(** The output of a call that returns, as the concatenation of what
    its three loops and its own statement contribute. *)
Lemma look4element_output USER_TYPES root ns el parent recurse_level fail normalize
    children sql :
  look4element USER_TYPES root ns el parent recurse_level fail normalize
  = Ok (children, sql) ->
  exists c sql_e cols sql_c sql_s,
    for_each
      (element_body USER_TYPES (look4element USER_TYPES root ns) root parent
         recurse_level fail normalize)
      (findall el (ns +:+ "element")) (false, "", None) = Ok (c, sql_e, cols)
    /\ nested_output (look4element USER_TYPES root ns) parent recurse_level fail
         (findall el (ns +:+ "complexType")) = Ok sql_c
    /\ nested_output (look4element USER_TYPES root ns) parent recurse_level fail
         (findall el (ns +:+ "sequence")) = Ok sql_s
    /\ sql = sql_e +:+ create_table parent cols +:+ sql_c +:+ sql_s.
Proof.
  rewrite look4element_unfold.
  destruct (MAX_RECURSE_LEVEL <? recurse_level)%Z; [discriminate|].
  unfold look4element_body.
  destruct (for_each _ (findall el (ns +:+ "element")) _)
    as [[[c sql_e] cols]|e]; run_bind; [|discriminate].
  cbv beta iota zeta. rewrite for_each_nested_body.
  destruct (nested_output _ _ _ _ (findall el (ns +:+ "complexType")))
    as [sql_c|e]; run_bind; [|discriminate].
  rewrite for_each_nested_body.
  destruct (nested_output _ _ _ _ (findall el (ns +:+ "sequence")))
    as [sql_s|e]; run_bind; [|discriminate].
  intros [= <- <-]. exists c, sql_e, cols, sql_c, sql_s.
  repeat split. now rewrite !append_assoc.
Qed.

(** C6, as stated, fails: [B] is declared inside [A], both emit a
    table, and the statement of [B] comes first in the output. *)
Lemma C6_nested_statement_comes_first :
  exists out i j,
    look4element ∅ nested_xsd XMLS nested_xsd (Some "doc") 0 false true
    = Ok (true, out)
    /\ index_of "CREATE TABLE A (a integer);" out = Some i
    /\ index_of "CREATE TABLE B (b varchar);" out = Some j
    /\ (j < i)%nat.
Proof.
  eexists _, _, _. split; [vm_compute; reflexivity|].
  split; [vm_compute; reflexivity|].
  split; [vm_compute; reflexivity|].
  vm_compute. lia.
Qed.

(** ** Nodes without columns *)

Lemma starts_with_app_sep pat :
  forall a c b,
    contains_char c pat = false ->
    starts_with pat (a +:+ String c b) = starts_with pat a.
Proof.
  induction pat as [|p pat IH]; intros a c b H; [reflexivity|].
  cbn [contains_char] in H. apply orb_false_elim in H as [Hp Hpat].
  destruct a as [|x a].
  - rewrite append_nil_l. cbn [starts_with].
    rewrite Ascii.eqb_sym, Hp. reflexivity.
  - rewrite append_cons. cbn [starts_with].
    destruct (Ascii.eqb p x); [now apply IH | reflexivity].
Qed.

Lemma occurs_app_sep pat a c b :
  contains_char c pat = false -> pat <> "" ->
  occurs pat (a +:+ String c b) = occurs pat a || occurs pat b.
Proof.
  intros Hc Hne. induction a as [|x a IH].
  - pose proof (starts_with_app_sep pat "" c b Hc) as E.
    rewrite append_nil_l in E |- *. cbn [occurs]. rewrite E.
    destruct pat; [congruence | reflexivity].
  - rewrite append_cons. cbn [occurs]. rewrite <- append_cons.
    rewrite starts_with_app_sep by assumption. rewrite IH.
    now rewrite orb_assoc.
Qed.

(** A statement cannot straddle a newline: two strings without one,
    the first of which ends with a newline, concatenate to a string
    without one. *)
Lemma occurs_app_newline (a b : string) :
  ends_with_newline a ->
  occurs CREATE_TABLE a = false -> occurs CREATE_TABLE b = false ->
  occurs CREATE_TABLE (a +:+ b) = false.
Proof.
  intros [->|[a' ->]] Ha Hb; [now rewrite append_nil_l|].
  unfold NL in *. rewrite append_assoc, append_cons, append_nil_l.
  rewrite occurs_app_sep in Ha |- * by (reflexivity || discriminate).
  apply orb_false_elim in Ha as [-> _]. now rewrite Hb.
Qed.

(** C9: when the loop over the child elements of a node ends with no
    columns, the call appends no statement of its own: its output is
    exactly what the nested calls produced, and it has no CREATE TABLE
    at all when these produced none. *)
Theorem C9_no_columns_no_statement USER_TYPES root ns el parent recurse_level
    fail normalize children sql c sql_e cols :
  look4element USER_TYPES root ns el parent recurse_level fail normalize
  = Ok (children, sql) ->
  for_each
    (element_body USER_TYPES (look4element USER_TYPES root ns) root parent
       recurse_level fail normalize)
    (findall el (ns +:+ "element")) (false, "", None) = Ok (c, sql_e, cols) ->
  truthy cols = false ->
  exists sql_c sql_s,
    nested_output (look4element USER_TYPES root ns) parent recurse_level fail
      (findall el (ns +:+ "complexType")) = Ok sql_c
    /\ nested_output (look4element USER_TYPES root ns) parent recurse_level fail
         (findall el (ns +:+ "sequence")) = Ok sql_s
    /\ create_table parent cols = ""
    /\ sql = sql_e +:+ sql_c +:+ sql_s
    /\ (occurs CREATE_TABLE sql_e = false ->
        occurs CREATE_TABLE sql_c = false ->
        occurs CREATE_TABLE sql_s = false ->
        occurs CREATE_TABLE sql = false).
Proof.
  intros H He Hcols.
  apply look4element_output in H
    as (c' & sql_e' & cols' & sql_c & sql_s & He' & Hc & Hs & ->).
  rewrite He in He'. injection He' as <- <- <-.
  assert (Hown : create_table parent cols = "")
    by (unfold create_table; now rewrite Hcols).
  rewrite Hown, append_nil_l.
  exists sql_c, sql_s. repeat split; try assumption.
  intros Oe Oc Os.
  apply element_loop_sql in He as [_ [d [Hd Hends]]].
  rewrite append_nil_l in Hd. subst d.
  apply occurs_app_newline; [assumption | assumption |].
  apply occurs_app_newline; [|assumption|assumption].
  eapply nested_output_ends. eassumption.
Qed.

Lemma C9_no_columns_no_statement_witness :
  exists sql_c sql_s,
    nested_output (look4element ∅ dropped_xsd XMLS) (Some "doc") 0 false
      (findall dropped_xsd (XMLS +:+ "complexType")) = Ok sql_c
    /\ nested_output (look4element ∅ dropped_xsd XMLS) (Some "doc") 0 false
         (findall dropped_xsd (XMLS +:+ "sequence")) = Ok sql_s
    /\ create_table (Some "doc") None = ""
    /\ NL = NL +:+ sql_c +:+ sql_s
    /\ (occurs CREATE_TABLE NL = false ->
        occurs CREATE_TABLE sql_c = false ->
        occurs CREATE_TABLE sql_s = false ->
        occurs CREATE_TABLE NL = false).
Proof.
  apply (C9_no_columns_no_statement ∅ dropped_xsd XMLS dropped_xsd (Some "doc")
           0 false true true NL true NL None).
  - vm_compute. reflexivity.
  - vm_compute. reflexivity.
  - reflexivity.
Defined.


(** ** The recursion limit *)

Section CallFacts.

Variable USER_TYPES : gmap string (option string).
Variable root : Element.
Variable ns : string.
Variable fail : bool.

Local Abbreviation invokes := (invokes USER_TYPES root ns fail).
Local Abbreviation run := (run USER_TYPES root ns fail).

(** Every call is made one level further down. *)
Lemma invokes_level fr fr' :
  invokes fr fr' -> fr_level fr' = (fr_level fr + 1)%Z.
Proof. intros H. destruct H; reflexivity. Qed.

Lemma nsteps_invokes_level n fr fr' :
  nsteps invokes n fr fr' -> fr_level fr' = (fr_level fr + Z.of_nat n)%Z.
Proof.
  induction 1 as [fr|n fr fr1 fr2 H1 _ IH]; [lia|].
  rewrite IH, (invokes_level _ _ H1). lia.
Qed.

Lemma element_body_call_raises call parent lvl normalize st x e :
  call x (py_or (get x "name") parent) (lvl + 1)%Z fail true = Raise e ->
  element_body USER_TYPES call root parent lvl fail normalize st x = Raise e.
Proof.
  intros H. unfold element_body. destruct st as [[c sql] cols].
  cbv beta iota zeta. rewrite H. reflexivity.
Qed.

Lemma element_body_type_raises call parent lvl normalize st x s pgType t e :
  call x (py_or (get x "name") parent) (lvl + 1)%Z fail true = Ok (false, s) ->
  lookup_type USER_TYPES (type_key x) = Ok pgType ->
  truthy pgType = false ->
  find_named root "http://www.w3.org/2001/XMLSchema" "complexType"
    (replace "dlican:" "" (type_key x)) = Ok (Some t) ->
  node_truthy (Some t) = true ->
  call t (get t "name") (lvl + 1)%Z fail true = Raise e ->
  element_body USER_TYPES call root parent lvl fail normalize st x = Raise e.
Proof.
  intros Hx Hk Hfalsy Hfind Htruthy Ht.
  unfold element_body. destruct st as [[c sql] cols].
  cbv beta iota zeta. rewrite Hx. run_bind. cbn [fst snd negb].
  fold (type_key x). rewrite Hk. run_bind. rewrite Hfalsy. cbn [negb].
  rewrite Hfind. run_bind. rewrite Htruthy, Ht. reflexivity.
Qed.

(** An exception raised by a call is raised by its caller: no call
    site is inside a [try]. *)
Lemma invokes_raise fr fr' e :
  invokes fr fr' -> run fr' = Raise e -> run fr = Raise e.
Proof.
  intros H Hraise. unfold run at 1.
  destruct H as [fr pre x post st Hlvl Hxs Hpre
                |fr pre x post st s pgType t Hlvl Hxs Hpre Hx Hk Hfalsy Hfind Htruthy
                |fr c sql cols pre x post st Hlvl He Hxs Hpre
                |fr c sql cols st1 pre x post st Hlvl He Hc Hxs Hpre];
    rewrite look4element_within_limit by assumption;
    unfold look4element_body.
  - rewrite Hxs.
    rewrite (for_each_raise _ pre post x _ st e Hpre); [reflexivity|].
    now apply element_body_call_raises.
  - rewrite Hxs.
    rewrite (for_each_raise _ pre post x _ st e Hpre); [reflexivity|].
    now apply element_body_type_raises with s pgType t.
  - unfold element_loop in He. rewrite He. run_bind. cbv beta iota zeta.
    rewrite Hxs.
    rewrite (for_each_raise _ pre post x _ st e Hpre); [reflexivity|].
    destruct st as [c' sql']. rewrite nested_body_eq.
    unfold run, child_frame in Hraise. cbn [fr_el fr_parent fr_level fr_normalize] in Hraise.
    now rewrite Hraise.
  - unfold element_loop in He. rewrite He. run_bind. cbv beta iota zeta.
    unfold nested_loop in Hc. rewrite Hc. run_bind.
    rewrite Hxs.
    rewrite (for_each_raise _ pre post x _ st e Hpre); [reflexivity|].
    destruct st as [c' sql']. rewrite nested_body_eq.
    unfold run, child_frame in Hraise. cbn [fr_el fr_parent fr_level fr_normalize] in Hraise.
    now rewrite Hraise.
Qed.

Lemma nsteps_invokes_raise n fr fr' e :
  nsteps invokes n fr fr' -> run fr' = Raise e -> run fr = Raise e.
Proof.
  induction 1 as [fr|n fr fr1 fr2 H1 _ IH]; [trivial|].
  intros H. eapply invokes_raise; [exact H1 | now apply IH].
Qed.

(** A call beyond the ceiling makes every activation above it raise
    [MaxRecursion]. *)
Lemma nsteps_invokes_over_limit n fr fr' :
  nsteps invokes n fr fr' ->
  (MAX_RECURSE_LEVEL < fr_level fr')%Z ->
  run fr = Raise MaxRecursion.
Proof.
  intros Hsteps Hover. eapply nsteps_invokes_raise; [exact Hsteps|].
  now apply look4element_over_limit.
Qed.

End CallFacts.

(** ** Leaves and empty complex types *)

(** A call that reports no children walked a node without [element],
    [complexType] and [sequence] children, and its output is empty. *)
Lemma look4element_leaf USER_TYPES root ns el parent recurse_level fail normalize s :
  look4element USER_TYPES root ns el parent recurse_level fail normalize
  = Ok (false, s) ->
  findall el (ns +:+ "element") = []
  /\ findall el (ns +:+ "complexType") = []
  /\ findall el (ns +:+ "sequence") = []
  /\ s = "".
Proof.
  rewrite look4element_unfold.
  destruct (MAX_RECURSE_LEVEL <? recurse_level)%Z; [discriminate|].
  unfold look4element_body.
  destruct (for_each _ (findall el (ns +:+ "element")) _)
    as [[[c sql_e] cols]|e] eqn:He; run_bind; [|discriminate].
  cbv beta iota zeta. rewrite for_each_nested_body.
  destruct (nested_output _ _ _ _ (findall el (ns +:+ "complexType")))
    as [sql_c|e] eqn:Hc; run_bind; [|discriminate].
  rewrite for_each_nested_body.
  destruct (nested_output _ _ _ _ (findall el (ns +:+ "sequence")))
    as [sql_s|e] eqn:Hs; run_bind; [|discriminate].
  intros [= Hflag <-].
  destruct (element_loop_sql _ _ _ _ _ _ _ _ _ _ _ _ _ _ He) as [-> _].
  destruct (findall el (ns +:+ "sequence")); [|discriminate Hflag].
  destruct (findall el (ns +:+ "complexType")); [|discriminate Hflag].
  destruct (findall el (ns +:+ "element")); [|discriminate Hflag].
  cbn [for_each nested_output] in He, Hc, Hs.
  injection He as <- <-. injection Hc as <-. injection Hs as <-.
  repeat split; reflexivity.
Qed.

(** C10, as stated, fails on two inputs.  A [complexType] that holds
    nothing but a comment has no child element, yet lxml counts the
    comment: the declaration is entered and its (empty) output is
    appended with a newline of its own, one more than when the
    declaration is absent.  And when the type name holds an apostrophe,
    [root.find] raises [SyntaxError] although a declaration of that
    name without any child exists. *)
Lemma C10_childless_is_not_enough :
  (exists t,
      find_named comment_xsd "http://www.w3.org/2001/XMLSchema" "complexType"
        "Empty" = Ok (Some t)
      /\ List.filter (fun c => match tag c with ElementTag _ => true | _ => false end)
           (children t) = []
      /\ element_body ∅ (look4element ∅ comment_xsd XMLS) comment_xsd (Some "doc")
           0 false true (false, "", None) empty_item
         = Ok (true, NL +:+ NL, None))
  /\ element_body ∅ (look4element ∅ dropped_xsd XMLS) dropped_xsd (Some "doc")
       0 false true (false, "", None) empty_item
     = Ok (true, NL, None)
  /\ (exists t,
        List.In t (children quoted_xsd)
        /\ get t "name" = Some "It's" /\ children t = []
        /\ element_body ∅ (look4element ∅ quoted_xsd XMLS) quoted_xsd (Some "doc")
             0 false true (false, "", None) quoted_item
           = Raise SyntaxError).
Proof.
  split; [|split].
  - eexists. split; [vm_compute; reflexivity|].
    split; vm_compute; reflexivity.
  - vm_compute. reflexivity.
  - exists (xs "complexType" [("name", "It's")] []).
    split; [right; left; reflexivity|].
    repeat split; vm_compute; reflexivity.
Qed.

(** C10, amended: for a leaf whose type is neither built in nor
    registered and whose type name holds no apostrophe, a top-level
    [complexType] of that name without any child node (no element, no
    comment, no processing instruction, no entity reference) makes the
    loop body do what it does when there is no such declaration: no
    nested call, no column, no statement, no exception; only the
    newline that follows the leaf's own (empty) output is appended. *)
Theorem C10_childless_complexType_like_absent USER_TYPES root ns parent
    recurse_level fail normalize c sql cols x s pgType :
  look4element USER_TYPES root ns x (py_or (get x "name") parent)
    (recurse_level + 1) fail true = Ok (false, s) ->
  lookup_type USER_TYPES (type_key x) = Ok pgType ->
  truthy pgType = false ->
  (find_named root "http://www.w3.org/2001/XMLSchema" "complexType"
     (replace "dlican:" "" (type_key x)) = Ok None
   \/ exists t,
       find_named root "http://www.w3.org/2001/XMLSchema" "complexType"
         (replace "dlican:" "" (type_key x)) = Ok (Some t)
       /\ children t = []) ->
  element_body USER_TYPES (look4element USER_TYPES root ns) root parent
    recurse_level fail normalize (c, sql, cols) x
  = Ok (true, sql +:+ NL, cols).
Proof.
  intros Hx Hk Hfalsy Hfind.
  destruct (look4element_leaf _ _ _ _ _ _ _ _ _ Hx) as (_ & _ & _ & ->).
  unfold element_body. cbv beta iota zeta. rewrite Hx. run_bind.
  cbn [fst snd negb]. fold (type_key x). rewrite Hk. run_bind.
  rewrite Hfalsy. cbn [negb]. rewrite append_nil_l.
  destruct Hfind as [->|[t [-> Hkids]]]; run_bind; cbn [node_truthy].
  - reflexivity.
  - now rewrite Hkids.
Qed.

Lemma C10_childless_complexType_like_absent_witness :
  element_body ∅ (look4element ∅ empty_xsd XMLS) empty_xsd (Some "doc")
    0 false true (false, "", None) empty_item
  = Ok (true, "" +:+ NL, None).
Proof.
  apply (C10_childless_complexType_like_absent ∅ empty_xsd XMLS (Some "doc")
           0 false true false "" None empty_item "" None).
  - vm_compute. reflexivity.
  - vm_compute. reflexivity.
  - reflexivity.
  - right. exists (xs "complexType" [("name", "Empty")] []).
    split; vm_compute; reflexivity.
Defined.

(** * Further properties *)

(** ** [pg_normalize] *)

Lemma replace_char (a b : ascii) (s : string) :
  replace (String a "") (String b "") s = string_map (swap_char a b) s.
Proof.
  unfold replace. induction s as [|c s IH]; [reflexivity|].
  cbn [replace_from starts_with string_map]. unfold swap_char at 1.
  destruct (Ascii.eqb a c).
  - cbn [String.length Nat.sub]. rewrite append_cons, append_nil_l. now rewrite IH.
  - now rewrite IH.
Qed.

Lemma lower_map (s : string) : lower s = string_map lower_char s.
Proof. induction s as [|c s IH]; [reflexivity|]. cbn. now rewrite IH. Qed.

Lemma string_map_map (f g : ascii -> ascii) (s : string) :
  string_map f (string_map g s) = string_map (fun c => f (g c)) s.
Proof. induction s as [|c s IH]; [reflexivity|]. cbn. now rewrite IH. Qed.

Lemma string_map_ext (f g : ascii -> ascii) (s : string) :
  (forall c, f c = g c) -> string_map f s = string_map g s.
Proof. intros H. induction s as [|c s IH]; [reflexivity|]. cbn. now rewrite H, IH. Qed.

(** [pg_normalize] works character by character. *)
Lemma pg_normalize_map (s : string) :
  pg_normalize (Some s) = string_map pg_char s.
Proof.
  unfold pg_normalize. destruct s as [|c s]; [reflexivity|].
  cbn [truthy py_str]. rewrite !replace_char, lower_map, !string_map_map.
  reflexivity.
Qed.

Lemma pg_char_idempotent (c : ascii) : pg_char (pg_char c) = pg_char c.
Proof. destruct c as [[] [] [] [] [] [] [] []]; reflexivity. Qed.

Lemma pg_normalize_twice (s : option string) :
  pg_normalize (Some (pg_normalize s)) = pg_normalize s.
Proof.
  destruct s as [s|]; [|reflexivity].
  rewrite !pg_normalize_map, string_map_map.
  apply string_map_ext, pg_char_idempotent.
Qed.

(** X1: normalizing twice is normalizing once. *)
Theorem X1_pg_normalize_idempotent (s : option string) :
  pg_normalize (Some (pg_normalize s)) = pg_normalize s.
Proof. apply pg_normalize_twice. Qed.

Lemma pg_char_facts (c : ascii) :
  Ascii.eqb "-" (pg_char c) = false
  /\ Ascii.eqb "." (pg_char c) = false
  /\ Ascii.eqb " " (pg_char c) = false
  /\ lower_char (pg_char c) = pg_char c.
Proof. destruct c as [[] [] [] [] [] [] [] []]; repeat split; reflexivity. Qed.

(** X2: the normalized string holds no dash, dot or space, and is in
    lower case: lowering it again changes nothing. *)
Theorem X2_pg_normalize_shape (s : string) :
  contains_char "-" (pg_normalize (Some s)) = false
  /\ contains_char "." (pg_normalize (Some s)) = false
  /\ contains_char " " (pg_normalize (Some s)) = false
  /\ lower (pg_normalize (Some s)) = pg_normalize (Some s).
Proof.
  rewrite pg_normalize_map.
  induction s as [|c s (IHd & IHp & IHs & IHl)]; [repeat split|].
  destruct (pg_char_facts c) as (Hd & Hp & Hs & Hl).
  cbn [string_map contains_char lower].
  rewrite IHd, IHp, IHs, IHl, Hd, Hp, Hs, Hl. repeat split.
Qed.

(** ** The [SDict] class *)

Lemma bind_ret {A : Type} (m : result A) : (m ≫= Ok) = m.
Proof. now destruct m. Qed.

(** A format string without a percent sign is returned as it is. *)
Lemma format_literal (getitem : string -> result string) (fmt : string) :
  contains_char "%" fmt = false -> py_format getitem fmt = Ok fmt.
Proof.
  unfold py_format. induction fmt as [|c fmt IH]; [reflexivity|].
  cbn [contains_char format_from]. intros H.
  apply orb_false_elim in H as [Hc Hfmt].
  rewrite Ascii.eqb_sym, Hc, (IH Hfmt). reflexivity.
Qed.

(** Reading a key without parentheses up to its closing parenthesis. *)
Lemma format_key (getitem : string -> result string) (t : string) :
  forall acc rest,
    contains_char "(" t = false -> contains_char ")" t = false ->
    format_from getitem (FKey acc 0) (t +:+ String ")" rest)
    = (v ← getitem (acc +:+ t); format_from getitem (FConv v) rest).
Proof.
  induction t as [|x t IH]; intros acc rest Ho Hc.
  - rewrite append_nil_l, append_empty_r. reflexivity.
  - cbn [contains_char] in Ho, Hc.
    apply orb_false_elim in Ho as [Hox Ho].
    apply orb_false_elim in Hc as [Hcx Hc].
    rewrite append_cons. cbn [format_from].
    rewrite (Ascii.eqb_sym x ")"), Hcx, (Ascii.eqb_sym x "("), Hox.
    rewrite (IH _ rest Ho Hc), append_assoc, append_cons, append_nil_l.
    reflexivity.
Qed.

(** The format [%(t)s] is the value of the key [t]. *)
Lemma format_placeholder (getitem : string -> result string) (t : string) :
  contains_char "(" t = false -> contains_char ")" t = false ->
  py_format getitem ("%(" +:+ t +:+ ")s") = getitem t.
Proof.
  intros Ho Hc. unfold py_format.
  rewrite !append_cons, append_nil_l. cbn [format_from Ascii.eqb].
  change (format_from getitem (FKey "" 0) (t +:+ ")s") = getitem t).
  rewrite (format_key getitem t "" "s" Ho Hc), append_nil_l.
  destruct (getitem t) as [v|e]; [|reflexivity].
  run_bind. cbn [format_from]. cbn. now rewrite append_empty_r.
Qed.

(** X3: an entry whose stored string holds no percent sign is
    returned unchanged by [__getitem__] and by [get]. *)
Theorem X3_literal_entry (d : nat) (self : gmap string (option string))
    (k v : string) :
  self !! k = Some (Some v) ->
  contains_char "%" v = false ->
  SDict_getitem (S d) self k = Ok v /\ SDict_get (S d) self k = Ok (Some v).
Proof.
  intros Hk Hv. unfold SDict_get. cbn [SDict_getitem]. rewrite Hk.
  rewrite (format_literal _ v Hv). split; reflexivity.
Qed.

Lemma X3_literal_entry_witness :
  SDict_getitem 1 DEFX2P "double" = Ok "double precision"
  /\ SDict_get 1 DEFX2P "double" = Ok (Some "double precision").
Proof.
  apply (X3_literal_entry 0 DEFX2P "double" "double precision");
    vm_compute; reflexivity.
Defined.

Lemma getitem_alias (d : nat) (self : gmap string (option string))
    (k t : string) :
  self !! k = Some (Some ("%(" +:+ t +:+ ")s")) ->
  contains_char "(" t = false -> contains_char ")" t = false ->
  SDict_getitem (S d) self k = SDict_getitem d self t.
Proof.
  intros Hk Ho Hc. cbn [SDict_getitem]. rewrite Hk.
  now apply format_placeholder.
Qed.

(** X4: looking up an entry of the form [%(t)s] is looking up [t] one
    frame further down, whatever the dictionary; [get] of the entry is
    then [get] of [t]. *)
Theorem X4_alias_entry (d : nat) (self : gmap string (option string))
    (k t : string) :
  self !! k = Some (Some ("%(" +:+ t +:+ ")s")) ->
  contains_char "(" t = false -> contains_char ")" t = false ->
  SDict_getitem (S d) self k = SDict_getitem d self t
  /\ SDict_get (S d) self k = SDict_get d self t.
Proof.
  intros Hk Ho Hc. unfold SDict_get.
  rewrite (getitem_alias d self k t Hk Ho Hc). split; reflexivity.
Qed.

Lemma X4_alias_entry_witness :
  SDict_getitem 2 DEFX2P "token" = SDict_getitem 1 DEFX2P "string"
  /\ SDict_get 2 DEFX2P "token" = SDict_get 1 DEFX2P "string".
Proof.
  apply (X4_alias_entry 1 DEFX2P "token" "string"); vm_compute; reflexivity.
Defined.

(** X5: when an entry [%(t)s] names a key [t] that is missing,
    [__getitem__] raises [KeyError] and [get] returns [None], as for a
    key that is itself missing. *)
Theorem X5_dangling_alias (d : nat) (self : gmap string (option string))
    (k t : string) :
  self !! k = Some (Some ("%(" +:+ t +:+ ")s")) ->
  contains_char "(" t = false -> contains_char ")" t = false ->
  self !! t = None ->
  SDict_getitem (S (S d)) self k = Raise KeyError
  /\ SDict_get (S (S d)) self k = Ok None.
Proof.
  intros Hk Ho Hc Ht. unfold SDict_get.
  rewrite (getitem_alias (S d) self k t Hk Ho Hc).
  cbn [SDict_getitem]. rewrite Ht. split; reflexivity.
Qed.

Lemma X5_dangling_alias_witness :
  SDict_getitem 2 {[ "a" := Some "%(b)s" ]} "a" = Raise KeyError
  /\ SDict_get 2 {[ "a" := Some "%(b)s" ]} "a" = Ok None.
Proof.
  apply (X5_dangling_alias 0 {[ "a" := Some "%(b)s" ]} "a" "b");
    vm_compute; reflexivity.
Defined.

(** X6: an entry that names itself can never be resolved: whatever
    the number of frames allowed, [get] ends with [RecursionError],
    which it does not catch. *)
Theorem X6_self_alias (self : gmap string (option string)) (k : string)
    (d : nat) :
  self !! k = Some (Some ("%(" +:+ k +:+ ")s")) ->
  contains_char "(" k = false -> contains_char ")" k = false ->
  SDict_getitem d self k = Raise RecursionError
  /\ SDict_get d self k = Raise RecursionError.
Proof.
  intros Hk Ho Hc.
  assert (H : SDict_getitem d self k = Raise RecursionError).
  { induction d as [|d IH]; [reflexivity|].
    now rewrite (getitem_alias d self k k Hk Ho Hc). }
  unfold SDict_get. rewrite H. split; reflexivity.
Qed.

Lemma X6_self_alias_witness :
  SDict_getitem 1000 {[ "a" := Some "%(a)s" ]} "a" = Raise RecursionError
  /\ SDict_get 1000 {[ "a" := Some "%(a)s" ]} "a" = Raise RecursionError.
Proof.
  apply (X6_self_alias {[ "a" := Some "%(a)s" ]} "a" 1000);
    vm_compute; reflexivity.
Defined.

(** ** The table [DEFX2P] *)

Lemma DEFX2P_get_outcomes (k : string) :
  match DEFX2P !! k with
  | None => DEFX2P_get k = Ok None
  | Some None => DEFX2P_get k = Raise TypeError
  | Some (Some _) =>
      exists v, DEFX2P_get k = Ok (Some v)
                /\ truthy (Some v) = true
                /\ contains_char "%" v = false
  end.
Proof.
  destruct (DEFX2P !! k) as [v|] eqn:E.
  - apply elem_of_list_to_map_2 in E. unfold DEFX2P_items in E.
    repeat (apply elem_of_cons in E as [E|E]);
      try (pose proof (f_equal fst E) as Hk; pose proof (f_equal snd E) as Hv;
           cbn [fst snd] in Hk, Hv; subst k v;
           first [ solve [vm_compute; reflexivity]
                 | solve [eexists; repeat split; vm_compute; reflexivity] ]).
    inversion E.
  - rewrite DEFX2P_get_two_frames. unfold SDict_get. cbn [SDict_getitem].
    now rewrite E.
Qed.

Lemma DEFX2P_get_raises (k : string) (e : exn) :
  DEFX2P_get k = Raise e -> e = TypeError.
Proof.
  intros H. pose proof (DEFX2P_get_outcomes k) as Hout.
  destruct (DEFX2P !! k) as [[w|]|]; [|congruence..].
  destruct Hout as (v & Hv & _). congruence.
Qed.

Lemma DEFX2P_get_truthy (k v : string) :
  DEFX2P_get k = Ok (Some v) -> truthy (Some v) = true.
Proof.
  intros H. pose proof (DEFX2P_get_outcomes k) as Hout.
  destruct (DEFX2P !! k) as [[w|]|]; try congruence.
  destruct Hout as (v' & Hv' & Htruthy & _). congruence.
Qed.

(** X7: [DEFX2P.get] has three outcomes.  For a string that is not a
    key it returns [None]; for a key stored with [None] it raises
    [TypeError]; for any other key it returns a non-empty column type
    without a percent sign.  It raises nothing else. *)
Theorem X7_DEFX2P_get_outcomes (k : string) :
  match DEFX2P !! k with
  | None => DEFX2P_get k = Ok None
  | Some None => DEFX2P_get k = Raise TypeError
  | Some (Some _) =>
      exists v, DEFX2P_get k = Ok (Some v)
                /\ truthy (Some v) = true
                /\ contains_char "%" v = false
  end.
Proof. exact (DEFX2P_get_outcomes k). Qed.

(** X8: a built-in type shadows a user type of the same name: when
    the table resolves [k], the registry is not consulted. *)
Theorem X8_builtin_shadows_user_type (USER_TYPES : gmap string (option string))
    (k v : string) :
  DEFX2P_get k = Ok (Some v) ->
  lookup_type USER_TYPES k = Ok (Some v).
Proof.
  intros H. unfold lookup_type. rewrite H. run_bind.
  pose proof (DEFX2P_get_truthy k v H) as Htruthy.
  unfold py_or. now rewrite Htruthy, Htruthy.
Qed.

Lemma X8_builtin_shadows_user_type_witness :
  lookup_type {[ "string" := Some "text" ]} "string" = Ok (Some "varchar").
Proof.
  apply (X8_builtin_shadows_user_type {[ "string" := Some "text" ]}
           "string" "varchar").
  vm_compute. reflexivity.
Defined.

(** ** The result of [look4element] *)

Lemma append_nonempty_l (a b : string) : a <> "" -> a +:+ b <> "".
Proof. destruct a; [congruence|]. rewrite append_cons. discriminate. Qed.

Lemma append_nonempty_r (a b : string) : b <> "" -> a +:+ b <> "".
Proof.
  intros Hb H. apply (f_equal String.length) in H.
  rewrite length_append in H. destruct b; [congruence|]. cbn in H. lia.
Qed.

Lemma append_NL_nonempty (a : string) : a +:+ NL <> "".
Proof. apply append_nonempty_r. discriminate. Qed.

(** A first loop that ran over at least one item has appended a
    newline-terminated text. *)
Lemma element_loop_nonempty USER_TYPES call root parent recurse_level fail
    normalize x xs c0 sql0 cols0 c sql cols :
  for_each (element_body USER_TYPES call root parent recurse_level fail normalize)
    (x :: xs) (c0, sql0, cols0) = Ok (c, sql, cols) ->
  exists d, sql = sql0 +:+ d +:+ NL.
Proof.
  cbn [for_each].
  destruct (element_body _ _ _ _ _ _ _ _ x) as [[[c1 sql1] cols1]|e] eqn:E;
    run_bind; [|discriminate].
  intros H. apply element_body_sql in E as [_ [d1 ->]].
  apply element_loop_sql in H as [_ [d2 [-> [->|[s' ->]]]]].
  - exists d1. now rewrite append_empty_r.
  - exists (d1 +:+ NL +:+ s'). now rewrite !append_assoc.
Qed.

Lemma nested_output_nonempty call parent recurse_level fail x xs out :
  nested_output call parent recurse_level fail (x :: xs) = Ok out ->
  out <> "".
Proof.
  cbn [nested_output].
  destruct (call x _ _ _ _) as [rez|e]; run_bind; [|discriminate].
  destruct (nested_output _ _ _ _ xs) as [out'|e]; run_bind; [|discriminate].
  intros [= <-]. apply append_nonempty_r, append_nonempty_l. discriminate.
Qed.

(** The flag and the text of a call that returns, in terms of the
    children of the node. *)
Lemma look4element_flag_and_text USER_TYPES root ns el parent recurse_level fail
    normalize c sql :
  look4element USER_TYPES root ns el parent recurse_level fail normalize
  = Ok (c, sql) ->
  c = match structural_children ns el with [] => false | _ :: _ => true end
  /\ (sql = "" <-> structural_children ns el = []).
Proof.
  rewrite look4element_unfold.
  destruct (MAX_RECURSE_LEVEL <? recurse_level)%Z; [discriminate|].
  unfold look4element_body, structural_children.
  destruct (for_each _ (findall el (ns +:+ "element")) _)
    as [[[ce sql_e] cols]|e] eqn:He; run_bind; [|discriminate].
  cbv beta iota zeta. rewrite for_each_nested_body.
  destruct (nested_output _ _ _ _ (findall el (ns +:+ "complexType")))
    as [sql_c|e] eqn:Hc; run_bind; [|discriminate].
  rewrite for_each_nested_body.
  destruct (nested_output _ _ _ _ (findall el (ns +:+ "sequence")))
    as [sql_s|e] eqn:Hs; run_bind; [|discriminate].
  intros [= <- <-].
  destruct (element_loop_sql _ _ _ _ _ _ _ _ _ _ _ _ _ _ He) as [-> _].
  destruct (findall el (ns +:+ "element")) as [|x xs].
  - cbn [for_each] in He. injection He as <- <-.
    cbn [create_table truthy]. rewrite !append_nil_l.
    destruct (findall el (ns +:+ "complexType")) as [|y ys].
    + cbn [nested_output] in Hc. injection Hc as <-. rewrite append_nil_l.
      destruct (findall el (ns +:+ "sequence")) as [|z zs].
      * cbn [nested_output] in Hs. injection Hs as <-. now split.
      * split; [reflexivity|]. split; [|discriminate].
        intros H. now apply nested_output_nonempty in Hs.
    + split; [now destruct (findall el (ns +:+ "sequence"))|].
      split; [|discriminate]. intros H.
      apply nested_output_nonempty in Hc. now apply (append_nonempty_l _ sql_s) in Hc.
  - split; [now destruct (findall el (ns +:+ "sequence")),
              (findall el (ns +:+ "complexType"))|].
    split; [|discriminate]. intros H. exfalso.
    apply element_loop_nonempty in He as [d ->].
    rewrite append_nil_l in H. revert H.
    do 3 apply append_nonempty_l. apply append_NL_nonempty.
Qed.

(** X9: when a call returns, its flag says whether the node has an
    [element], [complexType] or [sequence] child, and its text is empty
    exactly when it has none. *)
Theorem X9_flag_and_text USER_TYPES root ns el parent recurse_level fail
    normalize c sql :
  look4element USER_TYPES root ns el parent recurse_level fail normalize
  = Ok (c, sql) ->
  c = match structural_children ns el with [] => false | _ :: _ => true end
  /\ (sql = "" <-> structural_children ns el = []).
Proof. apply look4element_flag_and_text. Qed.

Lemma X9_flag_and_text_witness :
  true = match structural_children XMLS order_xsd with [] => false | _ :: _ => true end
  /\ (NL +:+ NL +:+ order_statement "Order" +:+ NL +:+ NL +:+ NL = ""
      <-> structural_children XMLS order_xsd = []).
Proof.
  apply (X9_flag_and_text ∅ order_xsd XMLS order_xsd (Some "order") 0 false true).
  vm_compute. reflexivity.
Defined.

(** ** The exceptions of [look4element] *)

Lemma for_each_raise_inv {S X : Type} (body : S -> X -> result S)
    (xs : list X) (s : S) (e : exn) :
  for_each body xs s = Raise e -> exists s' x, body s' x = Raise e.
Proof.
  revert s. induction xs as [|x xs IH]; intros s; cbn [for_each]; [discriminate|].
  destruct (body s x) as [s1|e1] eqn:E; run_bind.
  - apply IH.
  - intros [= <-]. eauto.
Qed.













(** ** The walk and the recursion level *)

Lemma for_each_mono {S X : Type} (body1 body2 : S -> X -> result S)
    (xs : list X) :
  (forall s x s', body1 s x = Ok s' -> body2 s x = Ok s') ->
  forall s r, for_each body1 xs s = Ok r -> for_each body2 xs s = Ok r.
Proof.
  intros Hmono. induction xs as [|x xs IH]; intros s r; cbn [for_each]; [trivial|].
  destruct (body1 s x) as [s1|e] eqn:E; run_bind; [|discriminate].
  rewrite (Hmono _ _ _ E). run_bind. apply IH.
Qed.

Section BodyMono.

Variable USER_TYPES : gmap string (option string).
Variables call1 call2 :
  Element -> option string -> Z -> bool -> bool -> result (bool * string).
Variable root : Element.
Variable parent : option string.
Variables level1 level2 : Z.
Variables fail normalize : bool.

(** Whatever the first function returns one level down, the second
    returns as well. *)
Hypothesis calls_return : forall x p r,
  call1 x p (level1 + 1)%Z fail true = Ok r ->
  call2 x p (level2 + 1)%Z fail true = Ok r.

Lemma element_body_mono st x st' :
  element_body USER_TYPES call1 root parent level1 fail normalize st x = Ok st' ->
  element_body USER_TYPES call2 root parent level2 fail normalize st x = Ok st'.
Proof.
  unfold element_body. destruct st as [[c sql] cols]. cbv beta iota zeta.
  destruct (call1 x _ _ _ _) as [rez|e] eqn:Ex; run_bind; [|discriminate].
  rewrite (calls_return _ _ _ Ex). run_bind.
  destruct (negb rez.1); [|trivial].
  destruct (lookup_type _ _) as [pgType|e]; run_bind; [|discriminate].
  destruct (negb (truthy pgType)); [|trivial].
  destruct (find_named _ _ _ _) as [[t|]|e]; run_bind; [|trivial|discriminate].
  destruct (node_truthy _); [|trivial].
  destruct (call1 t _ _ _ _) as [rez'|e] eqn:Et; run_bind; [|discriminate].
  rewrite (calls_return _ _ _ Et). run_bind. trivial.
Qed.

Lemma nested_body_mono st x st' :
  nested_body call1 parent level1 fail st x = Ok st' ->
  nested_body call2 parent level2 fail st x = Ok st'.
Proof.
  destruct st as [c sql]. rewrite !nested_body_eq.
  destruct (call1 x _ _ _ _) as [rez|e] eqn:Ex; run_bind; [|discriminate].
  rewrite (calls_return _ _ _ Ex). run_bind. trivial.
Qed.

Lemma look4element_body_mono ns el r :
  look4element_body USER_TYPES call1 root parent level1 fail normalize ns el = Ok r ->
  look4element_body USER_TYPES call2 root parent level2 fail normalize ns el = Ok r.
Proof.
  unfold look4element_body.
  destruct (for_each _ (findall el (ns +:+ "element")) _)
    as [[[c sql] cols]|e] eqn:He; run_bind; [|discriminate].
  rewrite (for_each_mono _ _ _ element_body_mono _ _ He). run_bind.
  cbv beta iota zeta.
  destruct (for_each _ (findall el (ns +:+ "complexType")) _)
    as [st|e] eqn:Hc; run_bind; [|discriminate].
  rewrite (for_each_mono _ _ _ nested_body_mono _ _ Hc). run_bind.
  destruct (for_each _ (findall el (ns +:+ "sequence")) _)
    as [st'|e] eqn:Hs; run_bind; [|discriminate].
  rewrite (for_each_mono _ _ _ nested_body_mono _ _ Hs). run_bind. trivial.
Qed.

End BodyMono.

Lemma look4element_level_within (n : nat) :
  forall USER_TYPES root ns el parent level level' fail normalize r,
    (MAX_RECURSE_LEVEL + 1 - level' <= Z.of_nat n)%Z ->
    (level' <= level)%Z ->
    look4element USER_TYPES root ns el parent level fail normalize = Ok r ->
    look4element USER_TYPES root ns el parent level' fail normalize = Ok r.
Proof.
  induction n as [|n IH]; intros USER_TYPES root ns el parent level level'
    fail normalize r Hn Hle; rewrite !look4element_unfold;
    destruct (Z.ltb_spec MAX_RECURSE_LEVEL level); try discriminate;
    destruct (Z.ltb_spec MAX_RECURSE_LEVEL level'); try lia.
  apply look4element_body_mono. intros x p r'. apply IH; lia.
Qed.

(** X11: the result of a walk that returns does not depend on the
    level it runs at: started at any lower level, the walk returns the
    same flag and the same text. *)
Theorem X11_level_independence USER_TYPES root ns el parent level level'
    fail normalize r :
  (level' <= level)%Z ->
  look4element USER_TYPES root ns el parent level fail normalize = Ok r ->
  look4element USER_TYPES root ns el parent level' fail normalize = Ok r.
Proof.
  intros Hle. apply (look4element_level_within
                       (Z.to_nat (MAX_RECURSE_LEVEL + 1 - level'))); lia.
Qed.

Lemma X11_level_independence_witness :
  look4element ∅ order_xsd XMLS order_xsd (Some "order") 0 false true
  = Ok (true, NL +:+ NL +:+ order_statement "Order" +:+ NL +:+ NL +:+ NL).
Proof.
  apply (X11_level_independence ∅ order_xsd XMLS order_xsd (Some "order") 96 0
           false true).
  - lia.
  - vm_compute. reflexivity.
Defined.

(** ** A node whose children are leaves *)

(** A node without [element], [complexType] and [sequence] children
    is a leaf: within the limit the call returns [(False, '')]. *)
Lemma look4element_childless USER_TYPES root ns el parent recurse_level fail
    normalize :
  (recurse_level <= MAX_RECURSE_LEVEL)%Z ->
  structural_children ns el = [] ->
  look4element USER_TYPES root ns el parent recurse_level fail normalize
  = Ok (false, "").
Proof.
  intros Hle Hnone. unfold structural_children in Hnone.
  apply app_eq_nil in Hnone as [He Hnone].
  apply app_eq_nil in Hnone as [Hc Hs].
  rewrite look4element_within_limit by assumption.
  unfold look4element_body. rewrite He, Hc, Hs. reflexivity.
Qed.

Lemma lookup_type_truthy USER_TYPES k ty :
  lookup_type USER_TYPES k = Ok (Some ty) -> truthy (Some ty) = true.
Proof.
  unfold lookup_type. destruct (DEFX2P_get k) as [d|e]; run_bind; [|discriminate].
  intros [= H]. unfold py_or at 1 in H.
  destruct (truthy (py_or d (mjoin (USER_TYPES !! k)))) eqn:E; [|discriminate].
  now rewrite H in E.
Qed.

Lemma column_nonempty normalize x ty : column normalize x ty <> "".
Proof. unfold column. apply append_nonempty_r, append_nonempty_l. discriminate. Qed.

Lemma truthy_nonempty (s : string) : s <> "" -> truthy (Some s) = true.
Proof. destruct s; [congruence | reflexivity]. Qed.

Lemma join_merge (sep a b : string) (l : list string) :
  join sep ((a +:+ sep +:+ b) :: l) = join sep (a :: b :: l).
Proof.
  destruct l as [|c l]; [reflexivity|].
  cbn [join]. now rewrite !append_assoc.
Qed.

Lemma join_nonempty (sep a : string) (l : list string) :
  a <> "" -> join sep (a :: l) <> "".
Proof.
  intros Ha. destruct l; cbn [join]; [assumption | now apply append_nonempty_l].
Qed.

Section FlatTable.

Variable USER_TYPES : gmap string (option string).
Variable root : Element.
Variable ns : string.
Variable parent : option string.
Variable recurse_level : Z.
Variables fail normalize : bool.

Hypothesis below_limit : (recurse_level < MAX_RECURSE_LEVEL)%Z.

Local Abbreviation resolved_leaf := (resolved_leaf USER_TYPES ns).

Lemma resolved_leaf_step x ty c sql cols :
  resolved_leaf x ty ->
  element_body USER_TYPES (look4element USER_TYPES root ns) root parent
    recurse_level fail normalize (c, sql, cols) x
  = Ok (true, sql +:+ NL,
        if negb (truthy cols) then Some (column normalize x ty)
        else Some (py_str cols +:+ ", " +:+ column normalize x ty)).
Proof.
  intros [Hleaf Hty]. unfold element_body. cbv beta iota zeta.
  rewrite look4element_childless by (lia || assumption). run_bind.
  cbn [fst snd negb]. fold (type_key x). rewrite Hty. run_bind.
  rewrite (lookup_type_truthy _ _ _ Hty). cbn [negb].
  rewrite append_nil_l. reflexivity.
Qed.

Lemma resolved_leaves_loop xs tys :
  Forall2 resolved_leaf xs tys ->
  forall c sql acc,
    acc <> "" ->
    for_each
      (element_body USER_TYPES (look4element USER_TYPES root ns) root parent
         recurse_level fail normalize)
      xs (c, sql, Some acc)
    = Ok (match xs with [] => c | _ :: _ => true end,
          sql +:+ newlines (List.length tys),
          Some (join ", " (acc :: zip_with (column normalize) xs tys))).
Proof.
  induction 1 as [|x ty xs tys Hx _ IH]; intros c sql acc Hacc.
  - cbn. now rewrite append_empty_r.
  - cbn [for_each]. rewrite (resolved_leaf_step x ty c sql (Some acc) Hx).
    run_bind. rewrite (truthy_nonempty acc Hacc). cbn [negb py_str].
    rewrite IH by now apply append_nonempty_l.
    cbn [List.length newlines zip_with].
    rewrite join_merge, !append_assoc. now destruct xs.
Qed.

End FlatTable.

Lemma flat_table USER_TYPES root ns el parent recurse_level fail normalize
    tys :
  (recurse_level < MAX_RECURSE_LEVEL)%Z ->
  findall el (ns +:+ "element") <> [] ->
  findall el (ns +:+ "complexType") = [] ->
  findall el (ns +:+ "sequence") = [] ->
  Forall2 (resolved_leaf USER_TYPES ns) (findall el (ns +:+ "element")) tys ->
  look4element USER_TYPES root ns el parent recurse_level fail normalize
  = Ok (true,
        newlines (List.length tys) +:+ "CREATE TABLE " +:+ py_str parent +:+ " ("
        +:+ join ", " (zip_with (column normalize) (findall el (ns +:+ "element")) tys)
        +:+ ");").
Proof.
  intros Hlt Hne Hc Hs Hleaves.
  rewrite look4element_within_limit by lia.
  unfold look4element_body. rewrite Hc, Hs.
  destruct Hleaves as [|x ty xs tys Hx Hxs]; [congruence|].
  cbn [for_each].
  rewrite (resolved_leaf_step _ _ _ _ _ _ _ Hlt x ty false "" None Hx). run_bind.
  cbn [truthy negb].
  rewrite (resolved_leaves_loop _ _ _ _ _ _ _ Hlt xs tys Hxs)
    by apply column_nonempty.
  run_bind. cbv beta iota zeta. cbn [for_each]. run_bind.
  unfold create_table.
  rewrite truthy_nonempty by (apply join_nonempty, column_nonempty).
  cbn [py_str List.length newlines zip_with].
  rewrite !append_assoc, !append_nil_l. now destruct xs.
Qed.

(** X12: a node below the limit whose children are leaves with
    resolvable types, and nothing else, yields one statement: as many
    newlines as there are leaves, then [CREATE TABLE parent (...);]
    with one column per leaf, in document order, separated by a comma
    and a space. *)
Theorem X12_flat_table USER_TYPES root ns el parent recurse_level fail normalize
    tys :
  (recurse_level < MAX_RECURSE_LEVEL)%Z ->
  findall el (ns +:+ "element") <> [] ->
  findall el (ns +:+ "complexType") = [] ->
  findall el (ns +:+ "sequence") = [] ->
  Forall2 (resolved_leaf USER_TYPES ns) (findall el (ns +:+ "element")) tys ->
  look4element USER_TYPES root ns el parent recurse_level fail normalize
  = Ok (true,
        newlines (List.length tys) +:+ "CREATE TABLE " +:+ py_str parent +:+ " ("
        +:+ join ", " (zip_with (column normalize) (findall el (ns +:+ "element")) tys)
        +:+ ");").
Proof. apply flat_table. Qed.

Lemma X12_flat_table_witness :
  look4element ∅ flat_xsd XMLS flat_xsd (Some "order") 0 false true
  = Ok (true,
        newlines 2 +:+ "CREATE TABLE " +:+ py_str (Some "order") +:+ " ("
        +:+ join ", " (zip_with (column true) (findall flat_xsd (XMLS +:+ "element"))
                         ["integer"; "varchar"])
        +:+ ");").
Proof.
  apply (X12_flat_table ∅ flat_xsd XMLS flat_xsd (Some "order") 0 false true
           ["integer"; "varchar"]).
  - reflexivity.
  - vm_compute. discriminate.
  - vm_compute. reflexivity.
  - vm_compute. reflexivity.
  - repeat constructor; vm_compute; reflexivity.
Defined.

(** ** The usual shape of a schema *)

(** A node through which the walk only passes: it has no [element]
    child and a single [complexType] or [sequence] child, which has no
    name. *)
Lemma wrapper_output USER_TYPES root ns el c parent recurse_level fail normalize :
  (recurse_level <= MAX_RECURSE_LEVEL)%Z ->
  wrapper ns el c ->
  look4element USER_TYPES root ns el parent recurse_level fail normalize
  = (rez ← look4element USER_TYPES root ns c parent (recurse_level + 1) fail true;
     Ok (true, rez.2 +:+ NL)).
Proof.
  intros Hle (He & Hkids & Hname).
  rewrite look4element_within_limit by assumption.
  unfold look4element_body. rewrite He. cbn [for_each]. run_bind.
  cbv beta iota zeta. cbn [create_table truthy]. rewrite append_nil_l.
  assert (Hp : py_or (get c "name") parent = parent)
    by (unfold py_or; now rewrite Hname).
  destruct Hkids as [[-> ->]|[-> ->]]; cbn [for_each]; run_bind; cbn [for_each];
    rewrite nested_body_eq, Hp;
    destruct (look4element USER_TYPES root ns c parent _ fail true) as [rez|e];
    run_bind; cbn [for_each]; run_bind; now rewrite ?append_nil_l.
Qed.

(** X20: an element whose content is a nameless [complexType] holding
    a nameless [sequence] of leaves with resolvable types yields one
    statement for the table name it was called with, followed by two
    newlines; the column names are normalized whatever [normalize] the
    caller passed. *)
Theorem X20_element_with_sequence USER_TYPES root ns el ct seq parent
    recurse_level fail normalize tys :
  (recurse_level + 2 < MAX_RECURSE_LEVEL)%Z ->
  wrapper ns el ct ->
  wrapper ns ct seq ->
  findall seq (ns +:+ "element") <> [] ->
  findall seq (ns +:+ "complexType") = [] ->
  findall seq (ns +:+ "sequence") = [] ->
  Forall2 (resolved_leaf USER_TYPES ns) (findall seq (ns +:+ "element")) tys ->
  look4element USER_TYPES root ns el parent recurse_level fail normalize
  = Ok (true,
        newlines (List.length tys) +:+ "CREATE TABLE " +:+ py_str parent +:+ " ("
        +:+ join ", " (zip_with (column true) (findall seq (ns +:+ "element")) tys)
        +:+ ");" +:+ NL +:+ NL).
Proof.
  intros Hlt Hel Hct Hne Hc Hs Hleaves.
  rewrite (wrapper_output _ _ _ el ct) by (lia || assumption).
  rewrite (wrapper_output _ _ _ ct seq) by (lia || assumption).
  rewrite (flat_table _ _ _ seq parent _ fail true tys) by (lia || assumption).
  run_bind. cbn [snd]. now rewrite !append_assoc.
Qed.

Lemma X20_element_with_sequence_witness :
  look4element ∅ order_xsd XMLS order_element (Some "Order") 1 false false
  = Ok (true,
        newlines 2 +:+ "CREATE TABLE " +:+ py_str (Some "Order") +:+ " ("
        +:+ join ", " (zip_with (column true)
                         (findall order_sequence (XMLS +:+ "element"))
                         ["integer"; "varchar"])
        +:+ ");" +:+ NL +:+ NL).
Proof.
  apply (X20_element_with_sequence ∅ order_xsd XMLS order_element
           order_complexType order_sequence (Some "Order") 1 false false
           ["integer"; "varchar"]).
  - reflexivity.
  - repeat split; try (vm_compute; reflexivity). left. split; vm_compute; reflexivity.
  - repeat split; try (vm_compute; reflexivity). right. split; vm_compute; reflexivity.
  - vm_compute. discriminate.
  - vm_compute. reflexivity.
  - vm_compute. reflexivity.
  - repeat constructor; vm_compute; reflexivity.
Defined.

(** X21: a leaf without a [type] and without a [ref] is a [varchar]
    column, whatever the registry holds. *)
Theorem X21_untyped_leaf USER_TYPES ns x :
  structural_children ns x = [] ->
  truthy (get x "type") = false ->
  truthy (get x "ref") = false ->
  resolved_leaf USER_TYPES ns x "varchar".
Proof.
  intros Hleaf Hty Href. split; [assumption|].
  unfold type_key, py_or. rewrite Hty, Href. cbn [truthy py_str].
  unfold lookup_type.
  replace (DEFX2P_get (replace XMLS_PREFIX "" "string")) with (Ok (Some "varchar"))
    by (vm_compute; reflexivity).
  reflexivity.
Qed.

Lemma X21_untyped_leaf_witness :
  resolved_leaf {[ "string" := Some "text" ]} XMLS
    (xs "element" [("name", "Remark")] []) "varchar".
Proof.
  apply (X21_untyped_leaf {[ "string" := Some "text" ]} XMLS
           (xs "element" [("name", "Remark")] []));
    vm_compute; reflexivity.
Defined.

(** ** [buildTypes] *)

Lemma for_each_invariant {S X : Type} (P : S -> Prop) (body : S -> X -> result S)
    (xs : list X) :
  (forall s x s', x ∈ xs -> P s -> body s x = Ok s' -> P s') ->
  forall s r, P s -> for_each body xs s = Ok r -> P r.
Proof.
  induction xs as [|x xs IH]; intros Hstep s r Hs; cbn [for_each].
  - now intros [= <-].
  - destruct (body s x) as [s1|e] eqn:E; run_bind; [|discriminate].
    apply IH.
    + intros s2 y s3 Hy. apply Hstep. apply elem_of_cons. now right.
    + apply (Hstep s x s1); [apply elem_of_cons; now left | assumption | assumption].
Qed.

Lemma register_element_cases USER_TYPES el USER_TYPES' :
  register_element USER_TYPES el = Ok USER_TYPES' ->
  USER_TYPES' = USER_TYPES
  \/ exists v, USER_TYPES' = <[registry_key el := v]> USER_TYPES.
Proof.
  unfold register_element.
  destruct (truthy (get el "name") && truthy (get el "type")).
  - destruct (DEFX2P_get _) as [v|e]; run_bind; [|discriminate].
    intros [= <-]. right. exists v. reflexivity.
  - intros [= <-]. left. reflexivity.
Qed.

Lemma register_simpleType_cases ns USER_TYPES el USER_TYPES' :
  register_simpleType ns USER_TYPES el = Ok USER_TYPES' ->
  exists base,
    restricts ns el base
    /\ USER_TYPES'
       = <[registry_key el := Some (replace XMLS_PREFIX "" base)]> USER_TYPES.
Proof.
  unfold register_simpleType, restricts.
  destruct (find el _) as [restr|] eqn:Hf; [|discriminate].
  destruct (get restr "base") as [base|] eqn:Hb; [|discriminate].
  intros [= <-]. exists base. split; [now exists restr | reflexivity].
Qed.

Lemma registry_key_normal (el : Element) :
  pg_normalize (Some (registry_key el)) = registry_key el.
Proof. apply pg_normalize_twice. Qed.

(** The keys of the registry stay in normal form. *)
Lemma buildTypes_keys ns root_element (USER_TYPES USER_TYPES' : gmap string (option string)) :
  (forall k, is_Some (USER_TYPES !! k) -> pg_normalize (Some k) = k) ->
  buildTypes ns root_element USER_TYPES = Ok USER_TYPES' ->
  forall k, is_Some (USER_TYPES' !! k) -> pg_normalize (Some k) = k.
Proof.
  intros Hkeys. unfold buildTypes.
  destruct (for_each register_element _ USER_TYPES) as [UT1|e] eqn:H1;
    run_bind; [|discriminate].
  intros H2.
  assert (Hstep : forall (m : gmap string (option string)) el v,
             (forall k, is_Some (m !! k) -> pg_normalize (Some k) = k) ->
             forall k, is_Some (<[registry_key el := v]> m !! k) ->
                       pg_normalize (Some k) = k).
  { intros m el v Hm k. rewrite lookup_insert.
    destruct (decide (registry_key el = k)) as [<-|Hne]; [|apply Hm].
    intros _. apply registry_key_normal. }
  eapply (for_each_invariant
            (fun m : gmap string (option string) =>
               forall k, is_Some (m !! k) -> pg_normalize (Some k) = k));
    [| |exact H2].
  - intros m el m' _ Hm Hreg.
    apply register_simpleType_cases in Hreg as (base & _ & ->). now apply Hstep.
  - eapply (for_each_invariant
              (fun m : gmap string (option string) =>
                 forall k, is_Some (m !! k) -> pg_normalize (Some k) = k));
      [| |exact H1]; [|exact Hkeys].
    intros m el m' _ Hm Hreg.
    apply register_element_cases in Hreg as [->|[v ->]];
      [assumption | now apply Hstep].
Qed.

(** X13: [buildTypes] keeps the keys of the registry in normal form:
    when every key it starts with is a fixed point of [pg_normalize], so
    is every key of the registry it returns. *)
Theorem X13_registry_keys_normal ns root_element
    (USER_TYPES USER_TYPES' : gmap string (option string)) :
  (forall k, is_Some (USER_TYPES !! k) -> pg_normalize (Some k) = k) ->
  buildTypes ns root_element USER_TYPES = Ok USER_TYPES' ->
  forall k, is_Some (USER_TYPES' !! k) -> pg_normalize (Some k) = k.
Proof. apply buildTypes_keys. Qed.

Lemma X13_registry_keys_normal_witness :
  pg_normalize (Some "mystr") = "mystr".
Proof.
  apply (X13_registry_keys_normal "http://www.w3.org/2001/XMLSchema" simple_xsd ∅
           {[ "mystr" := Some "string"; "note" := None ]}).
  - intros k [v Hv]. rewrite lookup_empty in Hv. discriminate.
  - vm_compute. reflexivity.
  - exists (Some "string"). vm_compute. reflexivity.
Defined.

(** X14: the walk looks a type up under the name as written, so a
    name that is not built in and not in normal form (an upper-case
    letter, a dash, a dot, a space) is never found in a registry that
    [buildTypes] built from the empty one. *)
Theorem X14_unnormalized_reference ns root_element
    (USER_TYPES : gmap string (option string)) (k : string) :
  buildTypes ns root_element ∅ = Ok USER_TYPES ->
  DEFX2P !! k = None ->
  pg_normalize (Some k) <> k ->
  lookup_type USER_TYPES k = Ok None.
Proof.
  intros Hbuild Hk Hnorm. unfold lookup_type.
  pose proof (DEFX2P_get_outcomes k) as Hget. rewrite Hk in Hget.
  rewrite Hget. run_bind.
  destruct (USER_TYPES !! k) as [v|] eqn:E; [|reflexivity].
  exfalso. apply Hnorm.
  apply (buildTypes_keys ns root_element ∅ USER_TYPES); [|assumption|now exists v].
  intros k' [v' Hv']. rewrite lookup_empty in Hv'. discriminate.
Qed.

Lemma X14_unnormalized_reference_witness :
  lookup_type {[ "mystr" := Some "string"; "note" := None ]} "MyStr" = Ok None.
Proof.
  apply (X14_unnormalized_reference "http://www.w3.org/2001/XMLSchema" simple_xsd).
  - vm_compute. reflexivity.
  - vm_compute. reflexivity.
  - vm_compute. discriminate.
Defined.

Lemma for_each_returns {S X : Type} (body : S -> X -> result S) (xs : list X) :
  (forall s x, x ∈ xs -> exists s', body s x = Ok s') ->
  forall s, exists r, for_each body xs s = Ok r.
Proof.
  induction xs as [|x xs IH]; intros Hbody s; cbn [for_each]; [eauto|].
  destruct (Hbody s x) as [s1 ->]; [apply elem_of_cons; now left|]. run_bind.
  apply IH. intros s2 y Hy. apply Hbody. apply elem_of_cons. now right.
Qed.

Lemma for_each_returned {S X : Type} (body : S -> X -> result S) (xs : list X) :
  forall s r, for_each body xs s = Ok r ->
  forall x, x ∈ xs -> exists s1 s2, body s1 x = Ok s2.
Proof.
  induction xs as [|x xs IH]; intros s r; cbn [for_each].
  - intros _ y Hy. now apply elem_of_nil in Hy.
  - destruct (body s x) as [s1|e] eqn:E; run_bind; [|discriminate].
    intros H y Hy. apply elem_of_cons in Hy as [->|Hy]; [eauto|].
    now apply (IH s1 r).
Qed.

Lemma register_element_returns USER_TYPES el :
  (exists USER_TYPES', register_element USER_TYPES el = Ok USER_TYPES')
  <-> ~ unsupported_element el.
Proof.
  unfold register_element, unsupported_element.
  pose proof (DEFX2P_get_outcomes
                (replace XMLS_PREFIX "" (py_str (get el "type")))) as Hget.
  destruct (truthy (get el "name")); cbn [andb].
  2: { split; [intros _ (Hn & _); discriminate Hn | intros _; eexists; reflexivity]. }
  destruct (truthy (get el "type")).
  2: { split; [intros _ (_ & Ht & _); discriminate Ht | intros _; eexists; reflexivity]. }
  destruct (DEFX2P !! _) as [[v|]|].
  - destruct Hget as (w & -> & _). run_bind.
    split; [intros _ (_ & _ & Hk); discriminate Hk | intros _; eexists; reflexivity].
  - rewrite Hget. run_bind. split; [intros [m Hm]; discriminate Hm|].
    intros H. exfalso. apply H. repeat split.
  - rewrite Hget. run_bind.
    split; [intros _ (_ & _ & Hk); discriminate Hk | intros _; eexists; reflexivity].
Qed.

Lemma register_simpleType_returns ns USER_TYPES el :
  (exists USER_TYPES', register_simpleType ns USER_TYPES el = Ok USER_TYPES')
  <-> exists base, restricts ns el base.
Proof.
  split.
  - intros [m H]. apply register_simpleType_cases in H as (base & H & _). eauto.
  - intros (base & restr & Hf & Hb). unfold register_simpleType.
    rewrite Hf, Hb. eauto.
Qed.

Lemma register_element_raises USER_TYPES el e :
  register_element USER_TYPES el = Raise e -> e = TypeError.
Proof.
  unfold register_element.
  destruct (truthy (get el "name") && truthy (get el "type")); [|discriminate].
  destruct (DEFX2P_get _) as [v|e'] eqn:E; run_bind; [discriminate|].
  intros [= <-]. now apply DEFX2P_get_raises in E.
Qed.

Lemma register_simpleType_raises ns USER_TYPES el e :
  register_simpleType ns USER_TYPES el = Raise e -> e = AttributeError.
Proof.
  unfold register_simpleType.
  destruct (find el _) as [restr|]; [|now intros [= <-]].
  destruct (get restr "base"); [discriminate | now intros [= <-]].
Qed.

(** X15: [buildTypes] returns exactly when no top-level element with
    a name has a type that the table stores with [None], and every
    top-level simple type has a [restriction] child with a [base]
    attribute.  Otherwise it raises [TypeError] (such an element) or
    [AttributeError] (such a simple type), and nothing else. *)
Theorem X15_buildTypes_returns ns root_element
    (USER_TYPES : gmap string (option string)) :
  ((exists USER_TYPES', buildTypes ns root_element USER_TYPES = Ok USER_TYPES')
   <-> (forall el, el ∈ findall root_element ("{" +:+ ns +:+ "}" +:+ "element") ->
                   ~ unsupported_element el)
       /\ (forall el, el ∈ findall root_element ("{" +:+ ns +:+ "}" +:+ "simpleType") ->
                      exists base, restricts ns el base))
  /\ (forall e, buildTypes ns root_element USER_TYPES = Raise e ->
                e = TypeError \/ e = AttributeError).
Proof.
  unfold buildTypes. split; [split|].
  - intros [m H].
    destruct (for_each register_element _ USER_TYPES) as [UT1|e] eqn:H1;
      run_bind; [|discriminate].
    split; intros el Hel.
    + destruct (for_each_returned _ _ _ _ H1 el Hel) as (s1 & s2 & Hreg).
      apply (register_element_returns s1 el). eauto.
    + destruct (for_each_returned _ _ _ _ H el Hel) as (s1 & s2 & Hreg).
      apply (register_simpleType_returns ns s1 el). eauto.
  - intros [Hel Hst].
    destruct (for_each_returns register_element
                (findall root_element ("{" +:+ ns +:+ "}" +:+ "element")))
      with (s := USER_TYPES) as [UT1 ->].
    { intros s x Hx. apply register_element_returns. now apply Hel. }
    run_bind. apply for_each_returns.
    intros s x Hx. apply register_simpleType_returns. now apply Hst.
  - intros e.
    destruct (for_each register_element _ USER_TYPES) as [UT1|e1] eqn:H1; run_bind.
    + intros H. apply for_each_raise_inv in H as (s & x & H).
      right. now apply register_simpleType_raises in H.
    + intros [= <-]. apply for_each_raise_inv in H1 as (s & x & H1).
      left. now apply register_element_raises in H1.
Qed.

(** The second loop: what it leaves alone and what it stores. *)
Lemma simpleType_loop ns (xs : list Element) :
  forall USER_TYPES USER_TYPES' : gmap string (option string),
    for_each (register_simpleType ns) xs USER_TYPES = Ok USER_TYPES' ->
    (forall k, (forall el, el ∈ xs -> registry_key el <> k) ->
               USER_TYPES' !! k = USER_TYPES !! k)
    /\ (forall el, el ∈ xs ->
          exists el' base,
            el' ∈ xs /\ registry_key el' = registry_key el
            /\ restricts ns el' base
            /\ USER_TYPES' !! registry_key el
               = Some (Some (replace XMLS_PREFIX "" base))).
Proof.
  induction xs as [|x xs IH]; intros USER_TYPES USER_TYPES'; cbn [for_each].
  - intros [= <-]. split; [reflexivity|].
    intros el Hel. now apply elem_of_nil in Hel.
  - destruct (register_simpleType ns USER_TYPES x) as [UT1|e] eqn:Hx;
      run_bind; [|discriminate].
    intros Hxs. apply register_simpleType_cases in Hx as (bx & Hbx & ->).
    destruct (IH _ _ Hxs) as [Hframe Hpost]. split.
    + intros k Hk. rewrite Hframe.
      * apply lookup_insert_ne. apply Hk, elem_of_cons. now left.
      * intros el Hel. apply Hk, elem_of_cons. now right.
    + intros el Hel.
      destruct (decide (Exists (fun el' => registry_key el' = registry_key el) xs))
        as [Hex|Hno].
      * apply Exists_exists in Hex as (el2 & Hel2 & Hkey).
        destruct (Hpost el2 Hel2) as (el' & base & Hel' & Hkey' & Hb & Hv).
        exists el', base. rewrite <- Hkey.
        repeat split; try assumption. apply elem_of_cons. now right.
      * assert (Hnone : forall el', el' ∈ xs -> registry_key el' <> registry_key el).
        { intros el' Hel' Hkey. apply Hno, Exists_exists. eauto. }
        apply elem_of_cons in Hel as [->|Hel]; [|now destruct (Hnone el Hel)].
        exists x, bx. repeat split; try assumption; [apply elem_of_cons; now left|].
        rewrite (Hframe _ Hnone). apply lookup_insert_eq.
Qed.

(** X16: after [buildTypes], every top-level simple type is
    registered under its normalized name, with the base name (prefix
    [xs:] removed) of a simple type of that normalized name; whatever
    the first loop stored under that name is overwritten. *)
Theorem X16_simpleTypes_registered ns root_element
    (USER_TYPES USER_TYPES' : gmap string (option string)) (el : Element) :
  buildTypes ns root_element USER_TYPES = Ok USER_TYPES' ->
  el ∈ findall root_element ("{" +:+ ns +:+ "}" +:+ "simpleType") ->
  exists el' base,
    el' ∈ findall root_element ("{" +:+ ns +:+ "}" +:+ "simpleType")
    /\ registry_key el' = registry_key el
    /\ restricts ns el' base
    /\ USER_TYPES' !! registry_key el = Some (Some (replace XMLS_PREFIX "" base)).
Proof.
  unfold buildTypes.
  destruct (for_each register_element _ USER_TYPES) as [UT1|e]; run_bind;
    [|discriminate].
  intros H Hel. now apply (simpleType_loop ns _ _ _ H).
Qed.

Lemma X16_simpleTypes_registered_witness :
  exists el' base,
    el' ∈ findall simple_xsd ("{" +:+ "http://www.w3.org/2001/XMLSchema" +:+ "}"
                              +:+ "simpleType")
    /\ registry_key el'
       = registry_key (xs "simpleType" [("name", "MyStr")]
                         [ xs "restriction" [("base", "xs:string")] [] ])
    /\ restricts "http://www.w3.org/2001/XMLSchema" el' base
    /\ ({[ "mystr" := Some "string"; "note" := None ]}
          : gmap string (option string))
         !! registry_key (xs "simpleType" [("name", "MyStr")]
                            [ xs "restriction" [("base", "xs:string")] [] ])
       = Some (Some (replace XMLS_PREFIX "" base)).
Proof.
  apply (X16_simpleTypes_registered "http://www.w3.org/2001/XMLSchema" simple_xsd ∅).
  - vm_compute. reflexivity.
  - vm_compute. apply elem_of_cons. now left.
Defined.

(** X17: [buildTypes] touches only the names it registers: the entry
    of any other key is what it was, so nothing is ever removed. *)
Theorem X17_buildTypes_frame ns root_element
    (USER_TYPES USER_TYPES' : gmap string (option string)) (k : string) :
  buildTypes ns root_element USER_TYPES = Ok USER_TYPES' ->
  (forall el,
      el ∈ findall root_element ("{" +:+ ns +:+ "}" +:+ "element") ->
      registry_key el <> k) ->
  (forall el,
      el ∈ findall root_element ("{" +:+ ns +:+ "}" +:+ "simpleType") ->
      registry_key el <> k) ->
  USER_TYPES' !! k = USER_TYPES !! k.
Proof.
  unfold buildTypes.
  destruct (for_each register_element _ USER_TYPES) as [UT1|e] eqn:H1; run_bind;
    [|discriminate].
  intros H2 Hel Hst.
  destruct (simpleType_loop ns _ _ _ H2) as [Hframe _]. rewrite (Hframe k Hst).
  eapply (for_each_invariant
            (fun m : gmap string (option string) => m !! k = USER_TYPES !! k));
    [| |exact H1]; [|reflexivity].
  intros m el m' Hin Hm Hreg.
  apply register_element_cases in Hreg as [->|[v ->]]; [assumption|].
  rewrite lookup_insert_ne; [assumption | now apply Hel].
Qed.

Lemma X17_buildTypes_frame_witness :
  ({[ "mystr" := Some "string"; "note" := None; "legacy" := Some "text" ]}
     : gmap string (option string)) !! "legacy"
  = ({[ "legacy" := Some "text" ]} : gmap string (option string)) !! "legacy".
Proof.
  apply (X17_buildTypes_frame "http://www.w3.org/2001/XMLSchema" simple_xsd).
  - vm_compute. reflexivity.
  - intros el Hel. vm_compute in Hel.
    apply elem_of_cons in Hel as [->|Hel]; [vm_compute; discriminate|].
    now apply elem_of_nil in Hel.
  - intros el Hel. vm_compute in Hel.
    apply elem_of_cons in Hel as [->|Hel]; [vm_compute; discriminate|].
    now apply elem_of_nil in Hel.
Defined.

(** ** The end of [main] *)

Section RemovePairs.

Variable a : ascii.

Local Abbreviation pair := (String a (String a "")).

Lemma starts_with_pair (c : ascii) (s : string) :
  starts_with pair (String c s) = Ascii.eqb a c && starts_with (String a "") s.
Proof. cbn [starts_with]. now destruct (Ascii.eqb a c). Qed.

Lemma replace_pair_matched (s : string) :
  replace pair "" (String a (String a s)) = replace pair "" s.
Proof.
  unfold replace. cbn [replace_from starts_with String.length Nat.sub].
  rewrite Ascii.eqb_refl. now rewrite append_nil_l.
Qed.

Lemma replace_pair_unmatched (c : ascii) (s : string) :
  starts_with pair (String c s) = false ->
  replace pair "" (String c s) = String c (replace pair "" s).
Proof.
  intros H. unfold replace. cbn [replace_from]. now rewrite H.
Qed.

Lemma replace_pair_head (s : string) :
  starts_with (String a "") s = false ->
  starts_with (String a "") (replace pair "" s) = false.
Proof.
  destruct s as [|c s]; [trivial|]. intros H.
  rewrite replace_pair_unmatched.
  - cbn [starts_with] in H |- *. now destruct (Ascii.eqb a c).
  - rewrite starts_with_pair. cbn [starts_with] in H.
    now destruct (Ascii.eqb a c).
Qed.

Lemma replace_pair_none (n : nat) :
  forall s, (String.length s <= n)%nat -> occurs pair (replace pair "" s) = false.
Proof.
  induction n as [|n IH]; intros s Hn.
  - destruct s; [reflexivity | cbn in Hn; lia].
  - destruct s as [|c s]; [reflexivity|].
    destruct (starts_with pair (String c s)) eqn:Hm.
    + rewrite starts_with_pair in Hm. apply andb_prop in Hm as [Hc Hs].
      apply Ascii.eqb_eq in Hc as <-.
      destruct s as [|c' s]; [discriminate|].
      cbn [starts_with] in Hs.
      destruct (Ascii.eqb a c') eqn:Hc'; [|discriminate].
      apply Ascii.eqb_eq in Hc' as <-.
      rewrite replace_pair_matched. apply IH. cbn in Hn. lia.
    + rewrite (replace_pair_unmatched _ _ Hm). cbn [occurs].
      rewrite IH by (cbn in Hn; lia). rewrite orb_false_r.
      rewrite starts_with_pair in Hm |- *.
      destruct (Ascii.eqb a c); [|reflexivity]. cbn [andb] in Hm |- *.
      now apply replace_pair_head.
Qed.

End RemovePairs.

(** X18: the text [main] prints holds no two newlines in a row. *)
Theorem X18_printed_has_no_blank_line (sql : string) :
  occurs (NL +:+ NL) (printed sql) = false.
Proof.
  unfold printed. apply (replace_pair_none (ascii_of_nat 10) (String.length sql)).
  reflexivity.
Qed.

(** X19: when the registration and the walk of a file return, [main]
    ends with [Exception("This shouldn't happen.")] exactly when the
    root of the document has no [element], [complexType] or [sequence]
    child. *)
Theorem X19_should_not_happen USER_TYPES fname xsd failOnBadType as_is
    USER_TYPES' result db_name db_host db_port db_username db_password :
  main_file USER_TYPES fname xsd failOnBadType as_is = Ok (USER_TYPES', result) ->
  main_report result db_name db_host db_port db_username db_password
  = ShouldNotHappen
  <-> structural_children XMLS xsd = [].
Proof.
  unfold main_file.
  destruct (buildTypes _ xsd USER_TYPES) as [UT1|e]; run_bind; [|discriminate].
  cbv zeta.
  destruct (look4element UT1 xsd XMLS xsd _ 0 failOnBadType (negb as_is))
    as [[c sql]|e] eqn:Hwalk; run_bind; [|discriminate].
  intros [= <- <-].
  apply look4element_flag_and_text in Hwalk as [_ Hempty].
  rewrite <- Hempty. unfold main_report. cbn [snd].
  destruct sql as [|ch sql]; cbn [truthy andb].
  - split; reflexivity.
  - split; [|discriminate]. now destruct (negb (truthy db_name)).
Qed.

Lemma X19_should_not_happen_witness :
  main_report (false, "") None (Some "localhost") (Some 5432%Z) None None
  = ShouldNotHappen
  <-> structural_children XMLS types_only_xsd = [].
Proof.
  apply (X19_should_not_happen ∅ "types.xsd" types_only_xsd false false
           {[ "code" := Some "string" ]}).
  vm_compute. reflexivity.
Defined.

(** * The output of one activation, part by part *)

Lemma element_body_part USER_TYPES call root parent recurse_level fail normalize
    c sql cols x :
  element_body USER_TYPES call root parent recurse_level fail normalize
    (c, sql, cols) x
  = (p ← element_part USER_TYPES call root parent recurse_level fail normalize x;
     Ok (true, sql +:+ p.1, add_column cols p.2)).
Proof.
  unfold element_body, element_part. cbv beta iota zeta. fold (type_key x).
  destruct (call x _ _ _ _) as [[b s]|e]; run_bind; [|reflexivity].
  cbn [fst snd]. destruct b; cbn [negb]; run_bind; cbn [fst snd add_column];
    [reflexivity|].
  destruct (lookup_type _ _) as [pgType|e]; run_bind; [|reflexivity].
  destruct (truthy pgType); cbn [negb]; run_bind; cbn [fst snd add_column];
    [reflexivity|].
  destruct (find_named _ _ _ _) as [[t|]|e]; run_bind; cbn [fst snd add_column];
    try reflexivity.
  destruct (node_truthy (Some t)); run_bind; cbn [fst snd add_column];
    [|reflexivity].
  destruct (call t _ _ _ _) as [rez'|e]; run_bind; cbn [fst snd add_column];
    [|reflexivity].
  now rewrite !append_assoc.
Qed.

Lemma element_loop_parts USER_TYPES call root parent recurse_level fail normalize
    xs :
  forall c sql cols,
    for_each (element_body USER_TYPES call root parent recurse_level fail normalize)
      xs (c, sql, cols)
    = (parts ← element_parts USER_TYPES call root parent recurse_level fail
                 normalize xs;
       Ok (match xs with [] => c | _ :: _ => true end,
           sql +:+ concat_all (map fst parts),
           fold_left add_column (map snd parts) cols)).
Proof.
  induction xs as [|x xs IH]; intros c sql cols; cbn [for_each element_parts].
  - run_bind. cbn [map concat_all fold_right fold_left].
    now rewrite append_empty_r.
  - rewrite element_body_part.
    destruct (element_part _ _ _ _ _ _ _ x) as [[t col]|e]; run_bind;
      [|reflexivity].
    rewrite IH.
    destruct (element_parts _ _ _ _ _ _ _ xs) as [parts|e]; run_bind;
      [|reflexivity].
    cbn [map fst snd concat_all fold_right fold_left].
    rewrite append_assoc. now destruct xs.
Qed.

Lemma element_parts_app USER_TYPES call root parent recurse_level fail normalize
    xs ys :
  element_parts USER_TYPES call root parent recurse_level fail normalize
    (xs ++ ys)%list
  = (a ← element_parts USER_TYPES call root parent recurse_level fail normalize xs;
     b ← element_parts USER_TYPES call root parent recurse_level fail normalize ys;
     Ok (a ++ b)%list).
Proof.
  induction xs as [|x xs IH]; cbn [app element_parts].
  - run_bind.
    destruct (element_parts _ _ _ _ _ _ _ ys); reflexivity.
  - destruct (element_part _ _ _ _ _ _ _ x) as [p|e]; run_bind; [|reflexivity].
    rewrite IH.
    destruct (element_parts _ _ _ _ _ _ _ xs) as [a|e]; run_bind; [|reflexivity].
    destruct (element_parts _ _ _ _ _ _ _ ys) as [b|e]; run_bind; reflexivity.
Qed.

(** The text of a part starts with the output of the call on the child
    and a newline, and its column, if any, is not empty. *)
Lemma element_part_inv USER_TYPES call root parent recurse_level fail normalize
    x p :
  element_part USER_TYPES call root parent recurse_level fail normalize x = Ok p ->
  (exists rez d,
      call x (py_or (get x "name") parent) (recurse_level + 1)%Z fail true = Ok rez
      /\ p.1 = rez.2 +:+ NL +:+ d)
  /\ p.2 <> Some "".
Proof.
  unfold element_part.
  destruct (call x _ _ _ _) as [rez|e]; run_bind; [|discriminate].
  assert (Hplain : forall q : string * option string,
             q = (rez.2 +:+ NL, None) ->
             (exists rez0 d, Ok rez = Ok rez0 /\ q.1 = rez0.2 +:+ NL +:+ d)
             /\ q.2 <> Some "").
  { intros q ->. split; [|discriminate].
    exists rez, "". split; [reflexivity|]. cbn [fst]. now rewrite append_empty_r. }
  destruct (negb rez.1).
  2: { intros [= <-]. now apply Hplain. }
  destruct (lookup_type _ _) as [pgType|e]; run_bind; [|discriminate].
  destruct (negb (truthy pgType)).
  2: { intros [= <-]. split.
    - exists rez, "". split; [reflexivity|]. cbn [fst]. now rewrite append_empty_r.
    - cbn [snd]. intros [= H]. now apply column_nonempty in H. }
  destruct (find_named _ _ _ _) as [[t|]|e]; run_bind; [| |discriminate].
  2: { intros [= <-]. now apply Hplain. }
  destruct (node_truthy (Some t)).
  2: { intros [= <-]. now apply Hplain. }
  destruct (call t _ _ _ _) as [rez'|e]; run_bind; [|discriminate].
  intros [= <-]. split; [|discriminate].
  exists rez, (rez'.2 +:+ NL). split; reflexivity.
Qed.

Lemma join_snoc (sep c : string) (l : list string) :
  forall a, join sep ((a :: l) ++ [c])%list = join sep (a :: l) +:+ sep +:+ c.
Proof.
  induction l as [|b l IH]; intros a; [reflexivity|].
  change (join sep ((a :: b :: l) ++ [c])%list)
    with (a +:+ sep +:+ join sep ((b :: l) ++ [c])%list).
  rewrite IH.
  change (join sep (a :: b :: l)) with (a +:+ sep +:+ join sep (b :: l)).
  now rewrite !append_assoc.
Qed.

(** Adding the columns of the parts one by one joins them with commas. *)
Lemma add_columns USER_TYPES call root parent recurse_level fail normalize xs :
  forall parts acc,
    element_parts USER_TYPES call root parent recurse_level fail normalize xs
    = Ok parts ->
    Forall (fun c : string => c <> "") acc ->
    fold_left add_column (map snd parts) (cols_of acc)
    = cols_of (acc ++ columns_of parts)%list
    /\ Forall (fun c : string => c <> "") (acc ++ columns_of parts)%list.
Proof.
  induction xs as [|x xs IH]; intros parts acc; cbn [element_parts].
  - intros [= <-] Hacc. cbn [map fold_left columns_of].
    now rewrite app_nil_r.
  - destruct (element_part _ _ _ _ _ _ _ x) as [[t col]|e] eqn:Ex; run_bind;
      [|discriminate].
    destruct (element_parts _ _ _ _ _ _ _ xs) as [ps|e] eqn:Exs; run_bind;
      [|discriminate].
    intros [= <-] Hacc.
    apply element_part_inv in Ex as [_ Hcol]. cbn [snd] in Hcol.
    cbn [map snd fold_left columns_of].
    destruct col as [c|]; cbn [add_column]; [|now apply IH].
    assert (Hc : c <> "") by congruence.
    assert (Hacc' : Forall (fun c : string => c <> "") (acc ++ [c])%list).
    { apply Forall_app. split; [assumption|]. now constructor. }
    destruct (IH ps (acc ++ [c])%list eq_refl Hacc') as [Hfold Hall].
    rewrite <- app_assoc in Hfold, Hall. cbn [app] in Hfold, Hall.
    split; [|assumption]. rewrite <- Hfold. f_equal.
    destruct acc as [|a acc]; [reflexivity|].
    cbn [cols_of]. inversion Hacc as [|? ? Ha _]; subst.
    rewrite (truthy_nonempty _ (join_nonempty ", " a acc Ha)).
    cbn [negb py_str app]. now rewrite <- join_snoc.
Qed.

Lemma create_table_own parent columns :
  Forall (fun c : string => c <> "") columns ->
  create_table parent (cols_of columns) = own_statement parent columns.
Proof.
  intros H. destruct columns as [|a l]; [reflexivity|].
  inversion H as [|? ? Ha _]; subst.
  unfold create_table, cols_of, own_statement.
  now rewrite (truthy_nonempty _ (join_nonempty ", " a l Ha)).
Qed.

Lemma concat_all_app (a b : list string) :
  concat_all (a ++ b)%list = concat_all a +:+ concat_all b.
Proof.
  induction a as [|x a IH]; [reflexivity|].
  cbn [app concat_all fold_right]. fold (concat_all (a ++ b)%list).
  fold (concat_all a). now rewrite IH, append_assoc.
Qed.

(** The output of a call that returns: the parts of its child elements
    in document order, its own statement, the outputs of its
    [complexType] and [sequence] children. *)
Lemma look4element_parts USER_TYPES root ns el parent recurse_level fail normalize
    children sql :
  look4element USER_TYPES root ns el parent recurse_level fail normalize
  = Ok (children, sql) ->
  exists parts sql_c sql_s,
    element_parts USER_TYPES (look4element USER_TYPES root ns) root parent
      recurse_level fail normalize (findall el (ns +:+ "element")) = Ok parts
    /\ nested_output (look4element USER_TYPES root ns) parent recurse_level fail
         (findall el (ns +:+ "complexType")) = Ok sql_c
    /\ nested_output (look4element USER_TYPES root ns) parent recurse_level fail
         (findall el (ns +:+ "sequence")) = Ok sql_s
    /\ sql = concat_all (map fst parts)
             +:+ own_statement parent (columns_of parts) +:+ sql_c +:+ sql_s.
Proof.
  intros H.
  apply look4element_output in H
    as (c & sql_e & cols & sql_c & sql_s & He & Hc & Hs & ->).
  rewrite element_loop_parts in He.
  destruct (element_parts _ _ _ _ _ _ _ _) as [parts|e] eqn:Ep; run_bind;
    [|discriminate].
  injection He as _ <- <-.
  exists parts, sql_c, sql_s. repeat split; try assumption.
  assert (Hnil : Forall (fun c : string => c <> "") []) by constructor.
  destruct (add_columns _ _ _ _ _ _ _ _ parts [] Ep Hnil) as [Hfold Hall].
  cbn [app cols_of] in Hfold, Hall.
  rewrite Hfold, (create_table_own _ _ Hall), append_nil_l. reflexivity.
Qed.

(** The output of every child element stands before the node's own
    statement. *)
Lemma look4element_child_first USER_TYPES call root parent recurse_level fail
    normalize pre x post parts :
  element_parts USER_TYPES call root parent recurse_level fail normalize
    (pre ++ x :: post)%list = Ok parts ->
  exists rez before between,
    call x (py_or (get x "name") parent) (recurse_level + 1)%Z fail true = Ok rez
    /\ concat_all (map fst parts) = before +:+ rez.2 +:+ NL +:+ between.
Proof.
  rewrite element_parts_app.
  destruct (element_parts _ _ _ _ _ _ _ pre) as [a|e]; run_bind; [|discriminate].
  cbn [element_parts].
  destruct (element_part _ _ _ _ _ _ _ x) as [p|e] eqn:Ex; run_bind;
    [|discriminate].
  destruct (element_parts _ _ _ _ _ _ _ post) as [b|e]; run_bind; [|discriminate].
  intros [= <-].
  apply element_part_inv in Ex as [(rez & d & Hrez & Hp) _].
  exists rez, (concat_all (map fst a)), (d +:+ concat_all (map fst b)).
  split; [assumption|].
  rewrite map_app, concat_all_app. cbn [map concat_all fold_right].
  fold (concat_all (map fst b)). rewrite Hp. now rewrite !append_assoc.
Qed.

(** C6, amended: the DDL string a call returns is the concatenation,
    in this order, of the parts of its child elements in document
    order, of the node's own CREATE TABLE statement if it has columns,
    and of the outputs of its [complexType] children and then of its
    [sequence] children, each followed by a newline, in document order.
    The part of a child element is the output of the call on it and a
    newline, followed, for a leaf of an unresolved type that names a
    top-level [complexType] with children, by the output of the call on
    that type and a newline; the columns of the statement are those of
    the resolved leaves, in document order.  The node's own statement
    therefore comes after the output of every child element, with the
    statements of the tables nested in it, and before the statements of
    the tables nested in its [complexType] and [sequence] children. *)
Theorem C6_statement_order USER_TYPES root ns el parent recurse_level fail normalize
    children sql :
  look4element USER_TYPES root ns el parent recurse_level fail normalize
  = Ok (children, sql) ->
  exists parts sql_c sql_s,
    element_parts USER_TYPES (look4element USER_TYPES root ns) root parent
      recurse_level fail normalize (findall el (ns +:+ "element")) = Ok parts
    /\ nested_output (look4element USER_TYPES root ns) parent recurse_level fail
         (findall el (ns +:+ "complexType")) = Ok sql_c
    /\ nested_output (look4element USER_TYPES root ns) parent recurse_level fail
         (findall el (ns +:+ "sequence")) = Ok sql_s
    /\ sql = concat_all (map fst parts)
             +:+ own_statement parent (columns_of parts) +:+ sql_c +:+ sql_s
    /\ forall pre x post,
         findall el (ns +:+ "element") = (pre ++ x :: post)%list ->
         exists rez before between,
           look4element USER_TYPES root ns x (py_or (get x "name") parent)
             (recurse_level + 1) fail true = Ok rez
           /\ sql = before +:+ rez.2 +:+ NL +:+ between
                    +:+ own_statement parent (columns_of parts)
                    +:+ sql_c +:+ sql_s.
Proof.
  intros H.
  apply look4element_parts in H as (parts & sql_c & sql_s & Hp & Hc & Hs & ->).
  exists parts, sql_c, sql_s. repeat split; try assumption.
  intros pre x post Hxs. rewrite Hxs in Hp.
  apply look4element_child_first in Hp as (rez & before & between & Hrez & ->).
  exists rez, before, between. split; [assumption|].
  now rewrite !append_assoc.
Qed.

Lemma C6_statement_order_witness :
  exists parts sql_c sql_s,
    element_parts ∅ (look4element ∅ nested_xsd XMLS) nested_xsd (Some "A")
      1 false true (findall nested_A (XMLS +:+ "element")) = Ok parts
    /\ nested_output (look4element ∅ nested_xsd XMLS) (Some "A") 1 false
         (findall nested_A (XMLS +:+ "complexType")) = Ok sql_c
    /\ nested_output (look4element ∅ nested_xsd XMLS) (Some "A") 1 false
         (findall nested_A (XMLS +:+ "sequence")) = Ok sql_s
    /\ NL +:+ NL +:+ "CREATE TABLE B (b varchar);" +:+ NL
       +:+ "CREATE TABLE A (a integer);"
       = concat_all (map fst parts)
         +:+ own_statement (Some "A") (columns_of parts) +:+ sql_c +:+ sql_s
    /\ forall pre x post,
         findall nested_A (XMLS +:+ "element") = (pre ++ x :: post)%list ->
         exists rez before between,
           look4element ∅ nested_xsd XMLS x (py_or (get x "name") (Some "A"))
             (1 + 1) false true = Ok rez
           /\ NL +:+ NL +:+ "CREATE TABLE B (b varchar);" +:+ NL
              +:+ "CREATE TABLE A (a integer);"
              = before +:+ rez.2 +:+ NL +:+ between
                +:+ own_statement (Some "A") (columns_of parts)
                +:+ sql_c +:+ sql_s.
Proof.
  apply (C6_statement_order ∅ nested_xsd XMLS nested_A (Some "A") 1
           false true true).
  vm_compute. reflexivity.
Defined.

(** * The recursion limit, from the wrapper down *)

Lemma chain_tag (k : nat) : tag (chain k) = ElementTag (XMLS +:+ "element").
Proof. destruct k; reflexivity. Qed.

Lemma chain_name (k : nat) : get (chain k) "name" = Some "e".
Proof. destruct k; reflexivity. Qed.

Lemma chain_type (k : nat) : get (chain k) "type" = None.
Proof. destruct k; reflexivity. Qed.

Lemma chain_type_key (k : nat) : type_key (chain k) = "string".
Proof. destruct k; reflexivity. Qed.

(** The children with a given tag of a node that holds one chain. *)
Lemma findall_over_chain local attrs k path :
  findall (xs local attrs [chain k]) path
  = if String.eqb (XMLS +:+ "element") path then [chain k] else [].
Proof.
  unfold findall, xs. cbn [children List.filter]. unfold has_tag.
  rewrite chain_tag. reflexivity.
Qed.

Lemma chain_leaf : structural_children XMLS (chain 0) = [].
Proof. reflexivity. Qed.

Lemma lookup_string USER_TYPES :
  lookup_type USER_TYPES "string" = Ok (Some "varchar").
Proof.
  unfold lookup_type.
  assert (H : DEFX2P_get "string" = Ok (Some "varchar"))
    by (vm_compute; reflexivity).
  rewrite H. reflexivity.
Qed.

(** A node whose only structural child is a chain returns when the
    call on the chain returns, and raises [MaxRecursion] when that call
    does. *)
Lemma over_chain_returns USER_TYPES root el parent recurse_level fail normalize k :
  findall el (XMLS +:+ "element") = [chain k] ->
  findall el (XMLS +:+ "complexType") = [] ->
  findall el (XMLS +:+ "sequence") = [] ->
  (recurse_level <= MAX_RECURSE_LEVEL)%Z ->
  (exists r,
      look4element USER_TYPES root XMLS (chain k)
        (py_or (get (chain k) "name") parent) (recurse_level + 1) fail true
      = Ok r) ->
  exists r,
    look4element USER_TYPES root XMLS el parent recurse_level fail normalize = Ok r.
Proof.
  intros He Hc Hs Hle [[b s] Hr].
  rewrite look4element_within_limit by assumption.
  unfold look4element_body. rewrite He, Hc, Hs. cbn [for_each].
  rewrite element_body_part. unfold element_part. rewrite Hr. run_bind.
  cbn [fst snd]. destruct b; cbn [negb]; run_bind.
  - eexists. reflexivity.
  - rewrite chain_type_key, lookup_string. run_bind.
    eexists. reflexivity.
Qed.

Lemma over_chain_overflows USER_TYPES root el parent recurse_level fail normalize k :
  findall el (XMLS +:+ "element") = [chain k] ->
  (recurse_level <= MAX_RECURSE_LEVEL)%Z ->
  look4element USER_TYPES root XMLS (chain k)
    (py_or (get (chain k) "name") parent) (recurse_level + 1) fail true
  = Raise MaxRecursion ->
  look4element USER_TYPES root XMLS el parent recurse_level fail normalize
  = Raise MaxRecursion.
Proof.
  intros He Hle Hr.
  rewrite look4element_within_limit by assumption.
  unfold look4element_body. rewrite He. cbn [for_each].
  erewrite element_body_call_raises; [reflexivity | exact Hr].
Qed.

Lemma chain_returns USER_TYPES root fail (k : nat) :
  forall parent recurse_level normalize,
    (recurse_level + Z.of_nat k <= MAX_RECURSE_LEVEL)%Z ->
    exists r,
      look4element USER_TYPES root XMLS (chain k) parent recurse_level fail
        normalize = Ok r.
Proof.
  induction k as [|k IH]; intros parent recurse_level normalize Hle.
  - exists (false, ""). apply look4element_childless; [lia | apply chain_leaf].
  - apply over_chain_returns with k.
    + apply (findall_over_chain "element" [("name", "e")] k).
    + apply (findall_over_chain "element" [("name", "e")] k).
    + apply (findall_over_chain "element" [("name", "e")] k).
    + lia.
    + apply IH. lia.
Qed.

Lemma chain_overflows USER_TYPES root fail (k : nat) :
  forall parent recurse_level normalize,
    (MAX_RECURSE_LEVEL < recurse_level + Z.of_nat k)%Z ->
    look4element USER_TYPES root XMLS (chain k) parent recurse_level fail
      normalize = Raise MaxRecursion.
Proof.
  induction k as [|k IH]; intros parent recurse_level normalize Hover.
  - apply look4element_over_limit. lia.
  - destruct (Z.ltb_spec MAX_RECURSE_LEVEL recurse_level) as [Hgt|Hle].
    + now apply look4element_over_limit.
    + apply over_chain_overflows with k.
      * apply (findall_over_chain "element" [("name", "e")] k).
      * assumption.
      * apply IH. lia.
Qed.

(** The schema of a chain declares no type of its own. *)
Lemma buildTypes_chain USER_TYPES (n : nat) :
  buildTypes "http://www.w3.org/2001/XMLSchema" (chain_xsd n) USER_TYPES
  = Ok USER_TYPES.
Proof.
  unfold buildTypes, chain_xsd. rewrite !findall_over_chain.
  change (String.eqb (XMLS +:+ "element")
            ("{" +:+ "http://www.w3.org/2001/XMLSchema" +:+ "}" +:+ "element"))
    with true.
  change (String.eqb (XMLS +:+ "element")
            ("{" +:+ "http://www.w3.org/2001/XMLSchema" +:+ "}" +:+ "simpleType"))
    with false.
  cbn [for_each]. unfold register_element.
  rewrite chain_name, chain_type. reflexivity.
Qed.

Lemma chain_xsd_returns USER_TYPES fname (n : nat) failOnBadType as_is :
  (n <= 99)%nat ->
  exists r,
    main_file USER_TYPES fname (chain_xsd n) failOnBadType as_is
    = Ok (USER_TYPES, r).
Proof.
  intros Hn. unfold main_file. rewrite buildTypes_chain. run_bind. cbv zeta.
  destruct (over_chain_returns USER_TYPES (chain_xsd n) (chain_xsd n)
              (Some (pg_normalize (Some (before_dot fname)))) 0 failOnBadType
              (negb as_is) n) as [r Hr].
  - apply (findall_over_chain "schema" [] n).
  - apply (findall_over_chain "schema" [] n).
  - apply (findall_over_chain "schema" [] n).
  - unfold MAX_RECURSE_LEVEL. lia.
  - apply chain_returns. unfold MAX_RECURSE_LEVEL. lia.
  - rewrite Hr. run_bind. now exists r.
Qed.

Lemma chain_xsd_overflows USER_TYPES fname (n : nat) failOnBadType as_is :
  (99 < n)%nat ->
  main_file USER_TYPES fname (chain_xsd n) failOnBadType as_is
  = Raise MaxRecursion.
Proof.
  intros Hn. unfold main_file. rewrite buildTypes_chain. run_bind. cbv zeta.
  rewrite (over_chain_overflows USER_TYPES (chain_xsd n) (chain_xsd n)
             (Some (pg_normalize (Some (before_dot fname)))) 0 failOnBadType
             (negb as_is) n); [reflexivity | | | ].
  - apply (findall_over_chain "schema" [] n).
  - unfold MAX_RECURSE_LEVEL. lia.
  - apply chain_overflows. unfold MAX_RECURSE_LEVEL. lia.
Qed.

(** An activation within the limit makes its nested calls one level
    further down and nowhere else: the body gives the same result when
    the function it calls is replaced by one that raises at every other
    level. *)
Lemma look4element_next_level USER_TYPES root ns el parent recurse_level fail
    normalize e :
  (recurse_level <= MAX_RECURSE_LEVEL)%Z ->
  look4element USER_TYPES root ns el parent recurse_level fail normalize
  = look4element_body USER_TYPES
      (fun x p lvl f n =>
         if (lvl =? recurse_level + 1)%Z
         then look4element USER_TYPES root ns x p lvl f n
         else Raise e)
      root parent recurse_level fail normalize ns el.
Proof.
  intros Hle. rewrite look4element_within_limit by assumption.
  apply look4element_body_ext. intros x p. cbv beta.
  now rewrite Z.eqb_refl.
Qed.

(** A call reached through [n] nested calls runs at level [n], and
    when that level exceeds the limit the conversion raises. *)
Lemma main_file_over_limit USER_TYPES fname xsd failOnBadType as_is USER_TYPES' n fr :
  buildTypes "http://www.w3.org/2001/XMLSchema" xsd USER_TYPES = Ok USER_TYPES' ->
  nsteps (invokes USER_TYPES' xsd XMLS failOnBadType) n
    (root_frame fname xsd as_is) fr ->
  fr_level (root_frame fname xsd as_is) = 0%Z
  /\ fr_level fr = Z.of_nat n
  /\ ((MAX_RECURSE_LEVEL < fr_level fr)%Z ->
      main_file USER_TYPES fname xsd failOnBadType as_is = Raise MaxRecursion).
Proof.
  intros Hbuild Hsteps. split; [reflexivity|]. split.
  - now rewrite (nsteps_invokes_level _ _ _ _ _ _ _ Hsteps).
  - intros Hover.
    pose proof (nsteps_invokes_over_limit _ _ _ _ _ _ _ Hsteps Hover) as Hrun.
    unfold main_file. rewrite Hbuild. run_bind.
    unfold run, root_frame in Hrun.
    cbn [fr_el fr_parent fr_level fr_normalize] in Hrun.
    cbv zeta. now rewrite Hrun.
Qed.

(** C7: the wrapper starts the walk at depth 0 and every activation
    makes its nested calls at its own depth plus 1, and at no other
    depth; a call whose depth exceeds [MAX_RECURSE_LEVEL] makes the
    conversion of the file raise [MaxRecursion], so that no DDL is
    returned.  In three parts: a call reached from the wrapper through
    [n] nested calls runs at depth [n], and beyond the limit the
    conversion raises; the body of an activation gives the same result
    when every call at a depth other than its own plus 1 is made to
    raise; and the conversion of a schema with [n + 1] element
    declarations nested in one another, the innermost of which is
    walked at depth [n + 1], returns when [n + 1 <= 100] and raises
    [MaxRecursion] otherwise. *)
Theorem C7_recursion_limit :
  (forall USER_TYPES fname xsd failOnBadType as_is USER_TYPES' n fr,
      buildTypes "http://www.w3.org/2001/XMLSchema" xsd USER_TYPES
      = Ok USER_TYPES' ->
      nsteps (invokes USER_TYPES' xsd XMLS failOnBadType) n
        (root_frame fname xsd as_is) fr ->
      fr_level (root_frame fname xsd as_is) = 0%Z
      /\ fr_level fr = Z.of_nat n
      /\ ((MAX_RECURSE_LEVEL < fr_level fr)%Z ->
          main_file USER_TYPES fname xsd failOnBadType as_is
          = Raise MaxRecursion))
  /\ (forall USER_TYPES root ns el parent recurse_level fail normalize e,
        (recurse_level <= MAX_RECURSE_LEVEL)%Z ->
        look4element USER_TYPES root ns el parent recurse_level fail normalize
        = look4element_body USER_TYPES
            (fun x p lvl f n =>
               if (lvl =? recurse_level + 1)%Z
               then look4element USER_TYPES root ns x p lvl f n
               else Raise e)
            root parent recurse_level fail normalize ns el)
  /\ (forall USER_TYPES fname (n : nat) failOnBadType as_is,
        ((n <= 99)%nat ->
         exists r,
           main_file USER_TYPES fname (chain_xsd n) failOnBadType as_is
           = Ok (USER_TYPES, r))
        /\ ((99 < n)%nat ->
            main_file USER_TYPES fname (chain_xsd n) failOnBadType as_is
            = Raise MaxRecursion)).
Proof.
  split; [|split].
  - apply main_file_over_limit.
  - apply look4element_next_level.
  - intros USER_TYPES fname n failOnBadType as_is. split.
    + apply chain_xsd_returns.
    + apply chain_xsd_overflows.
Qed.

Ltac cyclic_step x0 :=
  eapply nsteps_l;
  [ eapply invokes_named_type
      with (pre := []) (x := x0) (post := []) (st := (false, "", None))
           (s := "") (pgType := None) (t := cyc_T);
    [ vm_compute; discriminate
    | vm_compute; reflexivity
    | vm_compute; reflexivity
    | vm_compute; reflexivity
    | vm_compute; reflexivity
    | reflexivity
    | vm_compute; reflexivity
    | reflexivity ]
  | ].

Lemma C7_recursion_limit_witness :
  (fr_level (root_frame "doc.xsd" cyclic_xsd false) = 0%Z
   /\ fr_level (mkFrame cyc_f (Some "f") 101 true) = Z.of_nat 101
   /\ ((MAX_RECURSE_LEVEL < fr_level (mkFrame cyc_f (Some "f") 101 true))%Z ->
       main_file ∅ "doc.xsd" cyclic_xsd false false = Raise MaxRecursion))
  /\ (exists r, main_file ∅ "doc.xsd" (chain_xsd 99) false false = Ok (∅, r))
  /\ main_file ∅ "doc.xsd" (chain_xsd 100) false false = Raise MaxRecursion.
Proof.
  destruct C7_recursion_limit as (Hcalls & _ & Hchain).
  split; [|split].
  - apply (Hcalls ∅ "doc.xsd" cyclic_xsd false false
             (<["e" := None]> ∅) 101 (mkFrame cyc_f (Some "f") 101 true)).
    + vm_compute. reflexivity.
    + cyclic_step cyc_e.
      do 99 (cyclic_step cyc_f).
      eapply nsteps_l; [|apply nsteps_O].
      eapply invokes_element
        with (pre := []) (x := cyc_f) (post := []) (st := (false, "", None)).
      * vm_compute. discriminate.
      * vm_compute. reflexivity.
      * vm_compute. reflexivity.
  - apply (Hchain ∅ "doc.xsd" 99%nat false false). lia.
  - apply (Hchain ∅ "doc.xsd" 100%nat false false). lia.
Defined.
